(** * Agent Talk Python SDK: error mapper, response mapper and transport

    A shallow embedding of [sdk/python/agent_talk] ([types.py], [errors.py],
    [client.py]) and the properties its specification states about the error
    taxonomy, the wire-to-typed mappers and the transport contract.

    Python values that travel through the SDK are decoded JSON documents, so
    the embedding works over one type of values; Python exceptions are an
    explicit result type; the network is an oracle that answers each request
    with an outcome, and a log of the requests it was asked. *)

From Stdlib Require Import ZArith List String Ascii Bool Lia DecimalString.
From Stdlib Require Import Permutation Sorted.
Import ListNotations.
Local Open Scope string_scope.
Local Open Scope Z_scope.
Local Set Warnings "-register-all".

(** ** Python values *)

(** What [json.loads] produces.  A [str] is its UTF-8 byte string.  A Python
    [float] is never computed with by the SDK, only carried and printed: it is
    represented by its [repr] (the shortest decimal that reads back to the
    same double), so [1.5] is [JFloat "1.5"].  A [dict] is the association list
    of its items in insertion order; the keys of a decoded JSON object are
    strings. *)
Inductive value : Type :=
| JNull
| JBool (b : bool)
| JInt (n : Z)
| JFloat (repr : string)
| JStr (s : string)
| JList (items : list value)
| JDict (items : list (string * value)).

(** Python's truth test, as used by [if x] and [x or y]. *)
Definition truthy (v : value) : bool :=
  match v with
  | JNull => false
  | JBool b => b
  | JInt n => negb (n =? 0)
  | JFloat r => negb (String.eqb r "0.0" || String.eqb r "-0.0")
  | JStr s => negb (String.eqb s "")
  | JList l => match l with [] => false | _ => true end
  | JDict d => match d with [] => false | _ => true end
  end.

(** First binding of a key in the items of a dict. *)
Fixpoint lookup (k : string) (d : list (string * value)) : option value :=
  match d with
  | [] => None
  | (k', v) :: rest => if String.eqb k k' then Some v else lookup k rest
  end.

(** [d.get(k, default)] on the items of a dict. *)
Definition items_get (d : list (string * value)) (k : string) (default : value) : value :=
  match lookup k d with
  | Some v => v
  | None => default
  end.

(** ** [str] and [repr] of a value, for f-strings *)

Definition dquote : ascii := ascii_of_N 34.

Definition hex_digit (n : N) : ascii :=
  ascii_of_N (if (n <? 10)%N then 48 + n else 87 + n)%N.

(** One character of [repr] of a [str] delimited by [quote].  Bytes from 0x80
    on belong to the UTF-8 encoding of a non-ASCII character and are kept:
    this is [repr] for the non-ASCII characters that are printable; those
    that are not, which [repr] writes as escapes, are outside this model. *)
Definition repr_char (quote c : ascii) : string :=
  let n := N_of_ascii c in
  if (Ascii.eqb c quote || Ascii.eqb c "\")%bool then String "\" (String c "")
  else if (n =? 9)%N then "\t"
  else if (n =? 10)%N then "\n"
  else if (n =? 13)%N then "\r"
  else if ((n <? 32) || (n =? 127))%N%bool
       then String "\" (String "x" (String (hex_digit (n / 16)) (String (hex_digit (n mod 16)) "")))
  else String c "".

Fixpoint contains_char (c : ascii) (s : string) : bool :=
  match s with
  | EmptyString => false
  | String c' rest => Ascii.eqb c c' || contains_char c rest
  end.

Fixpoint repr_chars (quote : ascii) (s : string) : string :=
  match s with
  | EmptyString => ""
  | String c rest => repr_char quote c ++ repr_chars quote rest
  end.

(** [repr] of a [str]: single quotes, unless the text has a single quote and
    no double quote. *)
Definition repr_str (s : string) : string :=
  let quote : ascii :=
    if (contains_char "'" s && negb (contains_char dquote s))%bool then dquote else "'"%char in
  String quote (repr_chars quote s ++ String quote "").

Definition str_int (n : Z) : string := NilZero.string_of_int (Z.to_int n).

Fixpoint join (sep : string) (l : list string) : string :=
  match l with
  | [] => ""
  | [x] => x
  | x :: rest => x ++ sep ++ join sep rest
  end.

Fixpoint py_repr (v : value) : string :=
  match v with
  | JNull => "None"
  | JBool true => "True"
  | JBool false => "False"
  | JInt n => str_int n
  | JFloat r => r
  | JStr s => repr_str s
  | JList l => "[" ++ join ", " (map py_repr l) ++ "]"
  | JDict d =>
      "{" ++ join ", " (map (fun kv => repr_str (fst kv) ++ ": " ++ py_repr (snd kv)) d) ++ "}"
  end.

(** [str(v)], which is what [{v}] in an f-string inserts. *)
Definition py_str (v : value) : string :=
  match v with
  | JStr s => s
  | _ => py_repr v
  end.

(** ** types.py: [ErrorDetails] *)

(** The dataclass checks no types, so every field holds a value; [None], the
    default of every field, is [JNull]. *)
Module ErrorDetails.

Record t : Type := mk {
  field : value;
  reason : value;
  provided_type : value;
  requested_voice : value;
  available_voices : value;
  limit : value;
  used : value;
  reset_at : value;
  required_tier : value;
  current_tier : value;
  operation : value;
  memo_id : value
}.

(** [ErrorDetails()] *)
Definition empty : t :=
  mk JNull JNull JNull JNull JNull JNull JNull JNull JNull JNull JNull JNull.

(** One keyword argument [k=v]; [None] when the dataclass has no field [k]
    (Python: [TypeError], unexpected keyword argument). *)
Definition set (k : string) (v : value) (d : t) : option t :=
  let '(mk f r pt rv av l u ra rt ct o m) := d in
  if String.eqb k "field" then Some (mk v r pt rv av l u ra rt ct o m)
  else if String.eqb k "reason" then Some (mk f v pt rv av l u ra rt ct o m)
  else if String.eqb k "provided_type" then Some (mk f r v rv av l u ra rt ct o m)
  else if String.eqb k "requested_voice" then Some (mk f r pt v av l u ra rt ct o m)
  else if String.eqb k "available_voices" then Some (mk f r pt rv v l u ra rt ct o m)
  else if String.eqb k "limit" then Some (mk f r pt rv av v u ra rt ct o m)
  else if String.eqb k "used" then Some (mk f r pt rv av l v ra rt ct o m)
  else if String.eqb k "reset_at" then Some (mk f r pt rv av l u v rt ct o m)
  else if String.eqb k "required_tier" then Some (mk f r pt rv av l u ra v ct o m)
  else if String.eqb k "current_tier" then Some (mk f r pt rv av l u ra rt v o m)
  else if String.eqb k "operation" then Some (mk f r pt rv av l u ra rt ct v m)
  else if String.eqb k "memo_id" then Some (mk f r pt rv av l u ra rt ct o v)
  else None.

(** The dataclass constructor called with the items of a dict as keyword
    arguments (the double-star call): the fields named by the items, the
    rest left at [None]. *)
Fixpoint from_kwargs (items : list (string * value)) (d : t) : option t :=
  match items with
  | [] => Some d
  | (k, v) :: rest =>
      match set k v d with
      | Some d' => from_kwargs rest d'
      | None => None
      end
  end.

(** The field called [k], for the twelve names of the dataclass. *)
Definition get (k : string) (d : t) : option value :=
  if String.eqb k "field" then Some (field d)
  else if String.eqb k "reason" then Some (reason d)
  else if String.eqb k "provided_type" then Some (provided_type d)
  else if String.eqb k "requested_voice" then Some (requested_voice d)
  else if String.eqb k "available_voices" then Some (available_voices d)
  else if String.eqb k "limit" then Some (limit d)
  else if String.eqb k "used" then Some (used d)
  else if String.eqb k "reset_at" then Some (reset_at d)
  else if String.eqb k "required_tier" then Some (required_tier d)
  else if String.eqb k "current_tier" then Some (current_tier d)
  else if String.eqb k "operation" then Some (operation d)
  else if String.eqb k "memo_id" then Some (memo_id d)
  else None.

End ErrorDetails.

(** ** errors.py *)

(** An instance of [AgentTalkError] or of one of its subclasses; [name] is the
    class name the constructor stores, so it tells the subclass. *)
Module AgentTalkError.

Record t : Type := mk {
  code : value;
  message : value;
  status_code : Z;
  details : option ErrorDetails.t;
  name : string
}.

End AgentTalkError.

(** [AgentTalkError(code, message, status_code=500, details=None)] *)
Definition AgentTalkError (code message : value) (status_code : Z)
    (details : option ErrorDetails.t) : AgentTalkError.t :=
  AgentTalkError.mk code message status_code details "AgentTalkError".

(** A subclass: [super().__init__(...)], then [self.name] is overwritten. *)
Definition subclass (name : string) (code : string) (message : value) (status_code : Z)
    (details : option ErrorDetails.t) : AgentTalkError.t :=
  AgentTalkError.mk (JStr code) message status_code details name.

Definition ValidationError (message : value) (details : option ErrorDetails.t) :=
  subclass "ValidationError" "VALIDATION_ERROR" message 400 details.

Definition InvalidInputError (field reason provided_type : value) :=
  let details :=
    {| ErrorDetails.field := field; ErrorDetails.reason := reason;
       ErrorDetails.provided_type := provided_type;
       ErrorDetails.requested_voice := JNull; ErrorDetails.available_voices := JNull;
       ErrorDetails.limit := JNull; ErrorDetails.used := JNull; ErrorDetails.reset_at := JNull;
       ErrorDetails.required_tier := JNull; ErrorDetails.current_tier := JNull;
       ErrorDetails.operation := JNull; ErrorDetails.memo_id := JNull |} in
  subclass "InvalidInputError" "INVALID_INPUT"
    (JStr ("Invalid " ++ py_str field ++ ": " ++ py_str reason)) 400 (Some details).

Definition MissingFieldError (field : value) :=
  let details :=
    {| ErrorDetails.field := field; ErrorDetails.reason := JNull;
       ErrorDetails.provided_type := JNull;
       ErrorDetails.requested_voice := JNull; ErrorDetails.available_voices := JNull;
       ErrorDetails.limit := JNull; ErrorDetails.used := JNull; ErrorDetails.reset_at := JNull;
       ErrorDetails.required_tier := JNull; ErrorDetails.current_tier := JNull;
       ErrorDetails.operation := JNull; ErrorDetails.memo_id := JNull |} in
  subclass "MissingFieldError" "MISSING_FIELD"
    (JStr ("Missing required field: " ++ py_str field)) 400 (Some details).

Definition InvalidVoiceError (requested_voice available_voices : value) :=
  let details :=
    {| ErrorDetails.field := JStr "voice"; ErrorDetails.reason := JNull;
       ErrorDetails.provided_type := JNull;
       ErrorDetails.requested_voice := requested_voice;
       ErrorDetails.available_voices := available_voices;
       ErrorDetails.limit := JNull; ErrorDetails.used := JNull; ErrorDetails.reset_at := JNull;
       ErrorDetails.required_tier := JNull; ErrorDetails.current_tier := JNull;
       ErrorDetails.operation := JNull; ErrorDetails.memo_id := JNull |} in
  subclass "InvalidVoiceError" "INVALID_VOICE"
    (JStr ("Invalid voice: " ++ String dquote (py_str requested_voice ++ String dquote "")))
    400 (Some details).

Definition UnauthorizedError (message : value) :=
  subclass "UnauthorizedError" "UNAUTHORIZED" message 401 None.

Definition MissingApiKeyError :=
  subclass "MissingApiKeyError" "MISSING_API_KEY" (JStr "API key is required") 401 None.

Definition InvalidApiKeyError :=
  subclass "InvalidApiKeyError" "INVALID_API_KEY" (JStr "Invalid API key") 401 None.

Definition ExpiredTokenError :=
  subclass "ExpiredTokenError" "EXPIRED_TOKEN" (JStr "Token has expired") 401 None.

Definition ForbiddenError (message : value) :=
  subclass "ForbiddenError" "FORBIDDEN" message 403 None.

Definition InsufficientTierError (required_tier current_tier : value) :=
  let details :=
    {| ErrorDetails.field := JNull; ErrorDetails.reason := JNull;
       ErrorDetails.provided_type := JNull;
       ErrorDetails.requested_voice := JNull; ErrorDetails.available_voices := JNull;
       ErrorDetails.limit := JNull; ErrorDetails.used := JNull; ErrorDetails.reset_at := JNull;
       ErrorDetails.required_tier := required_tier;
       ErrorDetails.current_tier := current_tier;
       ErrorDetails.operation := JNull; ErrorDetails.memo_id := JNull |} in
  subclass "InsufficientTierError" "INSUFFICIENT_TIER"
    (JStr ("This feature requires " ++ py_str required_tier ++ " tier")) 403 (Some details).

Definition RevokedKeyError :=
  subclass "RevokedKeyError" "REVOKED_KEY" (JStr "API key has been revoked") 403 None.

Definition NotFoundError (resource : value) :=
  subclass "NotFoundError" "NOT_FOUND" (JStr (py_str resource ++ " not found")) 404 None.

Definition MemoNotFoundError (memo_id : value) :=
  let details :=
    {| ErrorDetails.field := JNull; ErrorDetails.reason := JNull;
       ErrorDetails.provided_type := JNull;
       ErrorDetails.requested_voice := JNull; ErrorDetails.available_voices := JNull;
       ErrorDetails.limit := JNull; ErrorDetails.used := JNull; ErrorDetails.reset_at := JNull;
       ErrorDetails.required_tier := JNull; ErrorDetails.current_tier := JNull;
       ErrorDetails.operation := JNull; ErrorDetails.memo_id := memo_id |} in
  subclass "MemoNotFoundError" "MEMO_NOT_FOUND" (JStr "Memo not found") 404 (Some details).

Definition RateLimitError (message : value) :=
  subclass "RateLimitError" "RATE_LIMIT_EXCEEDED" message 429 None.

(** The details of the two quota errors: [ErrorDetails(limit=, used=, reset_at=)]. *)
Definition quota_details (limit used reset_at : value) : ErrorDetails.t :=
  {| ErrorDetails.field := JNull; ErrorDetails.reason := JNull;
     ErrorDetails.provided_type := JNull;
     ErrorDetails.requested_voice := JNull; ErrorDetails.available_voices := JNull;
     ErrorDetails.limit := limit; ErrorDetails.used := used; ErrorDetails.reset_at := reset_at;
     ErrorDetails.required_tier := JNull; ErrorDetails.current_tier := JNull;
     ErrorDetails.operation := JNull; ErrorDetails.memo_id := JNull |}.

Definition DailyLimitExceededError (limit used reset_at : value) :=
  subclass "DailyLimitExceededError" "DAILY_LIMIT_EXCEEDED"
    (JStr "Daily rate limit exceeded") 429 (Some (quota_details limit used reset_at)).

Definition MonthlyLimitExceededError (limit used reset_at : value) :=
  subclass "MonthlyLimitExceededError" "MONTHLY_LIMIT_EXCEEDED"
    (JStr "Monthly rate limit exceeded") 429 (Some (quota_details limit used reset_at)).

Definition InternalError (message : value) :=
  subclass "InternalError" "INTERNAL_ERROR" message 500 None.

Definition TTSServiceError (message : value) :=
  subclass "TTSServiceError" "TTS_SERVICE_ERROR" message 500 None.

Definition StorageError (operation : value) :=
  let details :=
    {| ErrorDetails.field := JNull; ErrorDetails.reason := JNull;
       ErrorDetails.provided_type := JNull;
       ErrorDetails.requested_voice := JNull; ErrorDetails.available_voices := JNull;
       ErrorDetails.limit := JNull; ErrorDetails.used := JNull; ErrorDetails.reset_at := JNull;
       ErrorDetails.required_tier := JNull; ErrorDetails.current_tier := JNull;
       ErrorDetails.operation := operation; ErrorDetails.memo_id := JNull |} in
  subclass "StorageError" "STORAGE_ERROR" (JStr "Storage operation failed") 500 (Some details).

Definition NotImplementedError (feature : value) :=
  subclass "NotImplementedError" "NOT_IMPLEMENTED"
    (JStr (py_str feature ++ " is not implemented")) 501 None.

Definition ServiceUnavailableError (message : value) :=
  subclass "ServiceUnavailableError" "SERVICE_UNAVAILABLE" message 503 None.

(** ** Exceptions and results *)

(** The exceptions the modelled code can end in: Python's own, and the SDK's
    [AgentTalkError] with the instance raised. *)
Inductive exn : Type :=
| TypeError
| AttributeError
| KeyError (key : string)
| JSONDecodeError
| ValueError
| OtherException (name : string)
| SdkError (e : AgentTalkError.t).

(** A Python expression either has a value or raises. *)
Inductive result (A : Type) : Type :=
| Ok (a : A)
| Raise (e : exn).
Arguments Ok {A} a.
Arguments Raise {A} e.

Definition bind {A B : Type} (m : result A) (k : A -> result B) : result B :=
  match m with
  | Ok a => k a
  | Raise e => Raise e
  end.

Declare Scope py_scope.
Delimit Scope py_scope with py.
Notation "x <- m ;; k" := (bind m (fun x => k))
  (at level 61, m at next level, right associativity) : py_scope.
Local Open Scope py_scope.

(** [obj.get(k, default)]: only a dict has the method. *)
Definition py_get (obj : value) (k : string) (default : value) : result value :=
  match obj with
  | JDict d => Ok (items_get d k default)
  | _ => Raise AttributeError
  end.

(** [obj[k]] for a string [k]: a missing key of a dict is a [KeyError]; a
    list or a str takes no string index and the other values take none. *)
Definition py_getitem (obj : value) (k : string) : result value :=
  match obj with
  | JDict d =>
      match lookup k d with
      | Some v => Ok v
      | None => Raise (KeyError k)
      end
  | _ => Raise TypeError
  end.

(** Whether a value can be a dict key. *)
Definition hashable (v : value) : bool :=
  match v with
  | JList _ | JDict _ => false
  | _ => true
  end.

(** The line [details = ErrorDetails(...) if details_data else None], whose
    call passes the items of [details_data] as keyword arguments; the
    double-star call wants a mapping. *)
Definition details_of (details_data : value) : result (option ErrorDetails.t) :=
  if truthy details_data then
    match details_data with
    | JDict items =>
        match ErrorDetails.from_kwargs items ErrorDetails.empty with
        | Some d => Ok (Some d)
        | None => Raise TypeError
        end
    | _ => Raise TypeError
    end
  else Ok None.

(** The dict of factories of [create_error_from_response]: each lambda is a
    thunk over the variables of the enclosing call, run only when chosen. *)
Definition error_map (message : value) (details : option ErrorDetails.t) (details_data : value)
  : list (string * (unit -> result AgentTalkError.t)) :=
  [ ("VALIDATION_ERROR", fun _ => Ok (ValidationError message details));
    ("INVALID_INPUT", fun _ =>
       field <- py_get details_data "field" (JStr "unknown") ;;
       reason <- py_get details_data "reason" message ;;
       provided_type <- py_get details_data "provided_type" JNull ;;
       Ok (InvalidInputError field reason provided_type));
    ("MISSING_FIELD", fun _ =>
       field <- py_get details_data "field" (JStr "unknown") ;;
       Ok (MissingFieldError field));
    ("INVALID_VOICE", fun _ =>
       requested_voice <- py_get details_data "requested_voice" (JStr "") ;;
       available_voices <- py_get details_data "available_voices" (JList []) ;;
       Ok (InvalidVoiceError requested_voice available_voices));
    ("UNAUTHORIZED", fun _ => Ok (UnauthorizedError message));
    ("MISSING_API_KEY", fun _ => Ok MissingApiKeyError);
    ("INVALID_API_KEY", fun _ => Ok InvalidApiKeyError);
    ("EXPIRED_TOKEN", fun _ => Ok ExpiredTokenError);
    ("FORBIDDEN", fun _ => Ok (ForbiddenError message));
    ("INSUFFICIENT_TIER", fun _ =>
       required_tier <- py_get details_data "required_tier" (JStr "") ;;
       current_tier <- py_get details_data "current_tier" (JStr "") ;;
       Ok (InsufficientTierError required_tier current_tier));
    ("REVOKED_KEY", fun _ => Ok RevokedKeyError);
    ("NOT_FOUND", fun _ => Ok (NotFoundError message));
    ("MEMO_NOT_FOUND", fun _ =>
       memo_id <- py_get details_data "field" (JStr "") ;;
       Ok (MemoNotFoundError memo_id));
    ("RATE_LIMIT_EXCEEDED", fun _ => Ok (RateLimitError message));
    ("DAILY_LIMIT_EXCEEDED", fun _ =>
       limit <- py_get details_data "limit" (JInt 0) ;;
       used <- py_get details_data "used" (JInt 0) ;;
       reset_at <- py_get details_data "reset_at" (JStr "") ;;
       Ok (DailyLimitExceededError limit used reset_at));
    ("MONTHLY_LIMIT_EXCEEDED", fun _ =>
       limit <- py_get details_data "limit" (JInt 0) ;;
       used <- py_get details_data "used" (JInt 0) ;;
       reset_at <- py_get details_data "reset_at" (JStr "") ;;
       Ok (MonthlyLimitExceededError limit used reset_at));
    ("INTERNAL_ERROR", fun _ => Ok (InternalError message));
    ("TTS_SERVICE_ERROR", fun _ => Ok (TTSServiceError message));
    ("STORAGE_ERROR", fun _ =>
       operation <- py_get details_data "operation" (JStr "unknown") ;;
       Ok (StorageError operation));
    ("NOT_IMPLEMENTED", fun _ => Ok (NotImplementedError message));
    ("SERVICE_UNAVAILABLE", fun _ => Ok (ServiceUnavailableError message)) ].

(** [error_map.get(k)] for a str [k]. *)
Fixpoint factory_of {A : Type} (k : string) (m : list (string * A)) : option A :=
  match m with
  | [] => None
  | (k', f) :: rest => if String.eqb k k' then Some f else factory_of k rest
  end.

(** [create_error_from_response(status_code, error_response)].  The lookup
    [error_map.get(code)] hashes [code], which a list or a dict refuses; a
    code that is not a str equals no key. *)
Definition create_error_from_response (status_code : Z) (error_response : value)
  : result AgentTalkError.t :=
  error_data <- py_get error_response "error" (JDict []) ;;
  code <- py_get error_data "code" (JStr "INTERNAL_ERROR") ;;
  message <- py_get error_data "message" (JStr "Unknown error") ;;
  details_data <- py_get error_data "details" (JDict []) ;;
  details <- details_of details_data ;;
  if hashable code then
    let error_factory :=
      match code with
      | JStr c => factory_of c (error_map message details details_data)
      | _ => None
      end in
    match error_factory with
    | Some factory => factory tt
    | None => Ok (AgentTalkError code message status_code details)
    end
  else Raise TypeError.

(** The envelope [{error: {code, message, details}}]. *)
Definition envelope (code message details : value) : value :=
  JDict [("error", JDict [("code", code); ("message", message); ("details", details)])].

(** ** types.py: the typed results and the configuration *)

Module MemoVoice.
Record t : Type := mk { id : value; name : value; gender : value; description : value }.
End MemoVoice.

Module MemoAudio.
Record t : Type := mk { url : value; duration : value; format : value }.
End MemoAudio.

Module Memo.
Record t : Type := mk {
  id : value;
  text : value;
  voice : MemoVoice.t;
  audio : MemoAudio.t;
  created_at : value
}.
End Memo.

Module HealthResponse.
Record t : Type := mk {
  status : value;
  service : value;
  version : value;
  timestamp : value;
  tts_mode : value;
  database : value
}.
End HealthResponse.

Module AgentTalkConfig.
Record t : Type := mk { api_key : option string; base_url : string; timeout : Z }.
(** [AgentTalkConfig()] *)
Definition default : t := mk None "https://talk.onhyper.io" 30000.
End AgentTalkConfig.

(** ** client.py: the network *)

(** What [urllib.request.Request] is built from. *)
Module Request.
Record t : Type := mk {
  url : string;
  data : option value;      (* the value whose JSON text is the body *)
  headers : list (string * string);
  method : string
}.
End Request.

(** The text read from a response and decoded as UTF-8, by what
    [json.loads] makes of it.  Bytes that are not UTF-8 give no text: they end
    the call with [UnicodeDecodeError], an [OtherFailure] below. *)
Inductive wire_body : Type :=
| EmptyBody                   (* the empty text; [json.loads] fails on it *)
| JsonText (v : value)        (* a text that decodes to [v] *)
| Malformed.                  (* a text, not empty, that does not decode *)

(** How building the request and opening it can end, for [_request].
    [Response] and [HTTPError] are answers whose body was read and decoded as
    UTF-8; [URLError] and [TimeoutError] are the exceptions of these classes
    raised in the [try] block.  [OtherFailure] is any other exception that
    reaches the caller as it is: one raised in the [try] block that no
    [except] clause matches ([http.client.RemoteDisconnected] when the server
    closes the connection without an answer, [ConnectionResetError] or
    [http.client.IncompleteRead] while the body is read, [UnicodeDecodeError]
    for a body that is not UTF-8), or one raised while the body of an
    [HTTPError] is read in its handler, a [TimeoutError] included.
    [InvalidURL] is [urllib.request.Request] refusing the URL with a
    [ValueError] (an URL without scheme, say): this happens before the [try]
    block and nothing reaches the network. *)
Inductive outcome : Type :=
| Response (body : wire_body)                           (* a 2xx answer *)
| HTTPError (code : Z) (reason : string) (body : wire_body)
| URLError (reason : string)                            (* no connection *)
| TimeoutError
| OtherFailure (name : string)                          (* caught by no clause *)
| InvalidURL.                                           (* refused before [try] *)

(** The world a call runs in: the library and the network as an oracle that
    tells how a request ends, and the requests the network has been handed
    so far, oldest first. *)
Record world : Type := mkWorld {
  urlopen : Request.t -> Z -> outcome;
  calls : list Request.t
}.

(** A network nobody has called yet. *)
Definition fresh (net : Request.t -> Z -> outcome) : world := mkWorld net [].

(** Code that may call the network and may raise. *)
Definition IO (A : Type) : Type := world -> result A * world.

Definition ret {A : Type} (r : result A) : IO A := fun w => (r, w).

Definition bindIO {A B : Type} (m : IO A) (k : A -> result B) : IO B :=
  fun w => let (r, w') := m w in (bind r k, w').

Definition DEFAULT_BASE_URL : string := "https://talk.onhyper.io".
Definition DEFAULT_TIMEOUT : Z := 30.

(** [x or y] on an optional str: [None] and the empty str are false. *)
Definition str_or (x : option string) (y : string) : string :=
  match x with
  | Some s => if String.eqb s "" then y else s
  | None => y
  end.

Module HttpClient.

Record t : Type := mk { base_url : string; api_key : option string; timeout : Z }.

(** [HttpClient(config)]; [//] is the floor division. *)
Definition init (config : AgentTalkConfig.t) : t :=
  mk (str_or (Some (AgentTalkConfig.base_url config)) DEFAULT_BASE_URL)
     (AgentTalkConfig.api_key config)
     (if AgentTalkConfig.timeout config =? 0 then DEFAULT_TIMEOUT
      else AgentTalkConfig.timeout config / 1000).

Definition get_base_url (self : t) : string := base_url self.

(** The request [_request] builds.  The Authorization header is added when
    [auth] holds and the key is a non-empty str; a body that is false
    (absent, or an empty dict) is not sent. *)
Definition build_request (self : t) (method path : string) (body : option value)
    (auth : bool) : Request.t :=
  let url := base_url self ++ path in
  let headers := [("Content-Type", "application/json"); ("Accept", "application/json")] in
  let headers :=
    match api_key self with
    | Some key =>
        if (auth && negb (String.eqb key ""))%bool
        then List.app headers [("Authorization", "Bearer " ++ key)]
        else headers
    | None => headers
    end in
  let data :=
    match body with
    | Some b => if truthy b then Some b else None
    | None => None
    end in
  Request.mk url data headers method.

(** What [_request] returns or raises, by how the request ends. *)
Definition handle (o : outcome) : result value :=
  match o with
  | Response EmptyBody => Ok (JDict [])
  | Response (JsonText v) => Ok v
  | Response Malformed => Raise JSONDecodeError
  | HTTPError code reason (JsonText error_response) =>
      e <- create_error_from_response code error_response ;;
      Raise (SdkError e)
  | HTTPError code reason _ =>
      Raise (SdkError (AgentTalkError (JStr "INTERNAL_ERROR")
               (JStr ("HTTP " ++ str_int code ++ ": " ++ reason)) code None))
  | URLError reason =>
      Raise (SdkError (AgentTalkError (JStr "SERVICE_UNAVAILABLE")
               (JStr ("Network error: Unable to connect to Agent Talk API: " ++ reason))
               503 None))
  | TimeoutError =>
      Raise (SdkError (AgentTalkError (JStr "SERVICE_UNAVAILABLE")
               (JStr "Request timeout") 408 None))
  | OtherFailure name => Raise (OtherException name)
  | InvalidURL => Raise ValueError
  end.

(** [self._request(method, path, body, auth)]: the request is built, and
    unless the URL is refused, the network is called once. *)
Definition _request (self : t) (method path : string) (body : option value) (auth : bool)
  : IO value :=
  fun w =>
    let request := build_request self method path body auth in
    match urlopen w request (timeout self) with
    | InvalidURL => (Raise ValueError, w)
    | o => (handle o, mkWorld (urlopen w) (List.app (calls w) [request]))
    end.

Definition get (self : t) (path : string) (auth : bool) : IO value :=
  _request self "GET" path None auth.

Definition post (self : t) (path : string) (body : option value) (auth : bool) : IO value :=
  _request self "POST" path body auth.

Definition delete (self : t) (path : string) (auth : bool) : IO value :=
  _request self "DELETE" path None auth.

End HttpClient.

(** ** client.py: the response mappers and the facade *)

(** The expression [Memo(id=response["id"], ...)] that [create] and [demo]
    both return; the arguments are evaluated left to right. *)
Definition Memo_of_response (response : value) : result Memo.t :=
  id <- py_getitem response "id" ;;
  text <- py_getitem response "text" ;;
  v <- py_getitem response "voice" ;;
  voice_id <- py_getitem v "id" ;;
  v <- py_getitem response "voice" ;;
  voice_name <- py_getitem v "name" ;;
  v <- py_getitem response "voice" ;;
  voice_gender <- py_getitem v "gender" ;;
  v <- py_getitem response "voice" ;;
  voice_description <- py_getitem v "description" ;;
  a <- py_getitem response "audio" ;;
  audio_url <- py_getitem a "url" ;;
  a <- py_getitem response "audio" ;;
  audio_duration <- py_getitem a "duration" ;;
  a <- py_getitem response "audio" ;;
  audio_format <- py_getitem a "format" ;;
  created_at <- py_getitem response "createdAt" ;;
  Ok (Memo.mk id text
        (MemoVoice.mk voice_id voice_name voice_gender voice_description)
        (MemoAudio.mk audio_url audio_duration audio_format)
        created_at).

(** The expression [HealthResponse(status=response["status"], ...)]. *)
Definition HealthResponse_of_response (response : value) : result HealthResponse.t :=
  status <- py_getitem response "status" ;;
  service <- py_getitem response "service" ;;
  version <- py_getitem response "version" ;;
  timestamp <- py_getitem response "timestamp" ;;
  tts_mode <- py_getitem response "ttsMode" ;;
  database <- py_getitem response "database" ;;
  Ok (HealthResponse.mk status service version timestamp tts_mode database).

Module MemoApi.

(** [self._client.post("/api/v1/memo", {...}, auth=True)], then the Memo. *)
Definition create (_client : HttpClient.t) (text voice : string) : IO Memo.t :=
  bindIO
    (HttpClient.post _client "/api/v1/memo"
       (Some (JDict [("text", JStr text); ("voice", JStr voice)])) true)
    Memo_of_response.

Definition demo (_client : HttpClient.t) (text voice : string) : IO Memo.t :=
  bindIO
    (HttpClient.post _client "/api/v1/demo"
       (Some (JDict [("text", JStr text); ("voice", JStr voice)])) false)
    Memo_of_response.

End MemoApi.

Module AgentTalk.

(** The facade; [memo] and [voices] hold the same [_client]. *)
Record t : Type := mk { _client : HttpClient.t }.

(** [AgentTalk(api_key, base_url, timeout)]; [timeout or 30000] takes the
    default for [None] and for [0]. *)
Definition init (api_key base_url : option string) (timeout : option Z) : t :=
  let config :=
    AgentTalkConfig.mk api_key (str_or base_url DEFAULT_BASE_URL)
      (match timeout with
       | Some ms => if ms =? 0 then 30000 else ms
       | None => 30000
       end) in
  mk (HttpClient.init config).

Definition memo_create (self : t) (text voice : string) : IO Memo.t :=
  MemoApi.create (_client self) text voice.

Definition memo_demo (self : t) (text voice : string) : IO Memo.t :=
  MemoApi.demo (_client self) text voice.

Definition health (self : t) : IO HealthResponse.t :=
  bindIO (HttpClient.get (_client self) "/health" false) HealthResponse_of_response.

Definition get_base_url (self : t) : string := HttpClient.get_base_url (_client self).

End AgentTalk.

(** ** The specification's tables *)

(** The taxonomy table of the specification: wire code and default status. *)
Definition spec_taxonomy : list (string * Z) :=
  [ ("VALIDATION_ERROR", 400); ("INVALID_INPUT", 400); ("MISSING_FIELD", 400);
    ("INVALID_VOICE", 400); ("UNAUTHORIZED", 401); ("MISSING_API_KEY", 401);
    ("INVALID_API_KEY", 401); ("EXPIRED_TOKEN", 401); ("FORBIDDEN", 403);
    ("INSUFFICIENT_TIER", 403); ("REVOKED_KEY", 403); ("NOT_FOUND", 404);
    ("MEMO_NOT_FOUND", 404); ("RATE_LIMIT_EXCEEDED", 429);
    ("DAILY_LIMIT_EXCEEDED", 429); ("MONTHLY_LIMIT_EXCEEDED", 429);
    ("INTERNAL_ERROR", 500); ("TTS_SERVICE_ERROR", 500); ("STORAGE_ERROR", 500);
    ("NOT_IMPLEMENTED", 501); ("SERVICE_UNAVAILABLE", 503) ].

(** The default status the taxonomy declares for a code; a value that is
    not the str of a listed code has none. *)
Definition taxonomy_status (code : value) : option Z :=
  match code with
  | JStr c => factory_of c spec_taxonomy
  | _ => None
  end.

(** The invariant of an error instance: its status is its kind's default. *)
Definition consistent (e : AgentTalkError.t) : Prop :=
  taxonomy_status (AgentTalkError.code e) = Some (AgentTalkError.status_code e).

(** The code of an envelope, as the first lines of the mapper read it. *)
Definition wire_code (error_response : value) : result value :=
  error_data <- py_get error_response "error" (JDict []) ;;
  py_get error_data "code" (JStr "INTERNAL_ERROR").

(** An envelope whose code is one of the taxonomy. *)
Definition recognized (error_response : value) : Prop :=
  exists c, wire_code error_response = Ok (JStr c) /\ In c (map fst spec_taxonomy).

(** The names of the fields of [ErrorDetails]. *)
Definition detail_fields : list string :=
  [ "field"; "reason"; "provided_type"; "requested_voice"; "available_voices";
    "limit"; "used"; "reset_at"; "required_tier"; "current_tier"; "operation";
    "memo_id" ].

(** A details object all of whose keys are fields of [ErrorDetails]. *)
Definition known_keys (items : list (string * value)) : Prop :=
  Forall (fun kv => In (fst kv) detail_fields) items.

(** What the mapper puts in the details of the error of a code for each
    param it reads from the wire details, when the param is absent there.
    The memo id of MEMO_NOT_FOUND is not listed. *)
Definition placeholders (code : string) (message : value) : list (string * value) :=
  if String.eqb code "INVALID_INPUT" then
    [("field", JStr "unknown"); ("reason", message); ("provided_type", JNull)]
  else if String.eqb code "MISSING_FIELD" then [("field", JStr "unknown")]
  else if String.eqb code "INVALID_VOICE" then
    [("requested_voice", JStr ""); ("available_voices", JList [])]
  else if String.eqb code "INSUFFICIENT_TIER" then
    [("required_tier", JStr ""); ("current_tier", JStr "")]
  else if (String.eqb code "DAILY_LIMIT_EXCEEDED" || String.eqb code "MONTHLY_LIMIT_EXCEEDED")%bool
  then [("limit", JInt 0); ("used", JInt 0); ("reset_at", JStr "")]
  else if String.eqb code "STORAGE_ERROR" then [("operation", JStr "unknown")]
  else [].

(** ** Notions the properties are stated with *)

(** The body of the repository's own test [test_create_error_from_response]:
    an INVALID_VOICE envelope whose details use the server's camelCase keys. *)
Definition invalid_voice_test_body : value :=
  envelope (JStr "INVALID_VOICE") (JStr "Invalid voice: invalid")
    (JDict [("requestedVoice", JStr "invalid");
            ("availableVoices", JList [JStr "rachel"; JStr "domi"; JStr "adam"])]).

(** The paths of the transport that raise an SDK error off the taxonomy,
    for an outcome [o] of the network and the error [e] raised. *)
Inductive off_taxonomy (o : outcome) (e : AgentTalkError.t) : Prop :=
| off_timeout :
    o = TimeoutError ->
    AgentTalkError.code e = JStr "SERVICE_UNAVAILABLE" ->
    AgentTalkError.status_code e = 408 ->
    off_taxonomy o e
| off_unrecognized (code : Z) (reason : string) (error_response : value) :
    o = HTTPError code reason (JsonText error_response) ->
    taxonomy_status (AgentTalkError.code e) = None ->
    AgentTalkError.status_code e = code ->
    off_taxonomy o e
| off_undecodable (code : Z) (reason : string) (answer : wire_body) :
    o = HTTPError code reason answer ->
    (forall v, answer <> JsonText v) ->
    AgentTalkError.code e = JStr "INTERNAL_ERROR" ->
    AgentTalkError.status_code e = code ->
    off_taxonomy o e.

(** The failures that an [except] clause of [_request] catches: an
    [URLError] and a [TimeoutError] raised in the [try] block. *)
Definition caught_failure (o : outcome) : bool :=
  match o with
  | URLError _ | TimeoutError => true
  | _ => false
  end.

(** The two target shapes with required fields, and the typed results. *)
Inductive shape : Type := MemoShape | HealthShape.

Inductive typed : Type :=
| AMemo (m : Memo.t)
| AHealth (h : HealthResponse.t).

(** The response mapper for a shape. *)
Definition map_response (s : shape) (response : value) : result typed :=
  match s with
  | MemoShape => m <- Memo_of_response response ;; Ok (AMemo m)
  | HealthShape => h <- HealthResponse_of_response response ;; Ok (AHealth h)
  end.

(** The required fields of the specification, as paths of wire names. *)
Definition required (s : shape) : list (list string) :=
  match s with
  | MemoShape =>
      [ ["id"]; ["text"];
        ["voice"; "id"]; ["voice"; "name"]; ["voice"; "gender"]; ["voice"; "description"];
        ["audio"; "url"]; ["audio"; "duration"]; ["audio"; "format"];
        ["createdAt"] ]
  | HealthShape =>
      [ ["status"]; ["service"]; ["version"]; ["timestamp"]; ["ttsMode"]; ["database"] ]
  end.

(** The value at a path of a body; [None] when a name on the way is absent
    or the value before it is no object. *)
Fixpoint resolve (response : value) (path : list string) : option value :=
  match path with
  | [] => Some response
  | k :: rest =>
      match response with
      | JDict d =>
          match lookup k d with
          | Some v => resolve v rest
          | None => None
          end
      | _ => None
      end
  end.

(** A body in which a required field of the shape is absent. *)
Definition missing_required (s : shape) (response : value) : Prop :=
  exists path, In path (required s) /\ resolve response path = None.

(** What the chain of subscripts along a path raises on a body:
    [TypeError] at the first value that is no object, [KeyError] of the first
    name that the object reached does not have, and nothing when the path
    resolves. *)
Fixpoint lookup_error (response : value) (path : list string) : option exn :=
  match path with
  | [] => None
  | k :: rest =>
      match response with
      | JDict d =>
          match lookup k d with
          | Some v => lookup_error v rest
          | None => Some (KeyError k)
          end
      | _ => Some TypeError
      end
  end.

(** Python's own exceptions of a failed subscript. *)
Definition builtin_lookup_error (x : exn) : Prop :=
  x = TypeError \/ exists k, x = KeyError k.

(** A memo body with a voice that has no name, and no audio. *)
Definition voiceless_memo_response : value :=
  JDict [("id", JStr "m1"); ("text", JStr "hi");
         ("voice", JDict [("id", JStr "rachel"); ("gender", JStr "female");
                          ("description", JStr "Calm")]);
         ("createdAt", JStr "2024-01-01T00:00:00Z")].

(** The memo-creation response of the specification's example. *)
Definition example_memo_response : value :=
  JDict [("id", JStr "m1"); ("text", JStr "hi");
         ("voice", JDict [("id", JStr "rachel"); ("name", JStr "Rachel");
                          ("gender", JStr "female"); ("description", JStr "Calm")]);
         ("audio", JDict [("url", JStr "https://x/a.mp3"); ("duration", JFloat "1.5");
                          ("format", JStr "mp3")]);
         ("createdAt", JStr "2024-01-01T00:00:00Z")].

(** The request [memo.create] sends from a client without API key: no
    Authorization header. *)
Definition keyless_create_request (text voice : string) : Request.t :=
  {| Request.url := "https://talk.onhyper.io/api/v1/memo";
     Request.data := Some (JDict [("text", JStr text); ("voice", JStr voice)]);
     Request.headers := [("Content-Type", "application/json"); ("Accept", "application/json")];
     Request.method := "POST" |}.

(** ** types.py and client.py: the voices API *)

Module Voice.
Record t : Type := mk { id : value; name : value; gender : value; description : value }.
End Voice.

(** The items a [for] sees in a str: its characters, each a str.  They are
    taken byte by byte here; the callers use nothing of them but that they
    are strs. *)
Fixpoint chars (s : string) : list value :=
  match s with
  | EmptyString => []
  | String c rest => JStr (String c "") :: chars rest
  end.

(** What [for x in v] runs over: the items of a list, the keys of a dict,
    the characters of a str; the other values are not iterable. *)
Definition py_iter (v : value) : result (list value) :=
  match v with
  | JList l => Ok l
  | JDict d => Ok (map (fun kv => JStr (fst kv)) d)
  | JStr s => Ok (chars s)
  | _ => Raise TypeError
  end.

(** A list comprehension [[f(x) for x in l]]: left to right, the first
    exception ends it. *)
Fixpoint comprehension {A B : Type} (f : A -> result B) (l : list A) : result (list B) :=
  match l with
  | [] => Ok []
  | x :: rest =>
      y <- f x ;;
      ys <- comprehension f rest ;;
      Ok (y :: ys)
  end.

(** The expression [Voice(id=v["id"], ...)] of [VoicesApi.list]. *)
Definition Voice_of_item (v : value) : result Voice.t :=
  id <- py_getitem v "id" ;;
  name <- py_getitem v "name" ;;
  gender <- py_getitem v "gender" ;;
  description <- py_getitem v "description" ;;
  Ok (Voice.mk id name gender description).

(** The comprehension [[Voice(...) for v in response["voices"]]]. *)
Definition Voices_of_response (response : value) : result (list Voice.t) :=
  voices <- py_getitem response "voices" ;;
  items <- py_iter voices ;;
  comprehension Voice_of_item items.

(** [v == s] for a str [s]: only an equal str is. *)
Definition eq_str (v : value) (s : string) : bool :=
  match v with
  | JStr s' => String.eqb s' s
  | _ => false
  end.

(** The loop of [VoicesApi.get]: the first voice whose id is [voice_id]. *)
Fixpoint first_with_id (voice_id : string) (voices : list Voice.t) : option Voice.t :=
  match voices with
  | [] => None
  | voice :: rest =>
      if eq_str (Voice.id voice) voice_id then Some voice
      else first_with_id voice_id rest
  end.

Module VoicesApi.

(** [self._client.get("/api/v1/voices", auth=False)], then the voices. *)
Definition list (_client : HttpClient.t) : IO (list Voice.t) :=
  bindIO (HttpClient.get _client "/api/v1/voices" false) Voices_of_response.

(** [self.list()], then the scan; [None] when no voice has the id. *)
Definition get (_client : HttpClient.t) (voice_id : string) : IO (option Voice.t) :=
  bindIO (list _client) (fun voices => Ok (first_with_id voice_id voices)).

End VoicesApi.

(** The value of a header of a request, if it has it. *)
Fixpoint header (k : string) (headers : list (string * string)) : option string :=
  match headers with
  | [] => None
  | (k', v) :: rest => if String.eqb k k' then Some v else header k rest
  end.

(** An item of the voices list with the four fields of a voice. *)
Definition voice_item (item : value) : Prop :=
  exists d id name gender description,
    item = JDict d /\
    lookup "id" d = Some id /\ lookup "name" d = Some name /\
    lookup "gender" d = Some gender /\ lookup "description" d = Some description.

(** The voice [voice] carries the four fields of the wire item [item]. *)
Definition voice_matches (item : value) (voice : Voice.t) : Prop :=
  py_getitem item "id" = Ok (Voice.id voice) /\
  py_getitem item "name" = Ok (Voice.name voice) /\
  py_getitem item "gender" = Ok (Voice.gender voice) /\
  py_getitem item "description" = Ok (Voice.description voice).

(** ** The operations of the facade, taken together *)

(** The five operations a client offers. *)
Inductive operation : Type :=
| MemoCreate (text voice : string)
| MemoDemo (text voice : string)
| VoicesList
| VoicesGet (voice_id : string)
| Health.

(** What an operation returns. *)
Inductive returned : Type :=
| RMemo (m : Memo.t)
| RVoices (voices : list Voice.t)
| RVoice (voice : option Voice.t)
| RHealth (h : HealthResponse.t).

(** The operation [op] called on the facade whose client is [self]. *)
Definition run (self : HttpClient.t) (op : operation) : IO returned :=
  match op with
  | MemoCreate text voice => bindIO (MemoApi.create self text voice) (fun m => Ok (RMemo m))
  | MemoDemo text voice => bindIO (MemoApi.demo self text voice) (fun m => Ok (RMemo m))
  | VoicesList => bindIO (VoicesApi.list self) (fun l => Ok (RVoices l))
  | VoicesGet voice_id => bindIO (VoicesApi.get self voice_id) (fun v => Ok (RVoice v))
  | Health => bindIO (AgentTalk.health (AgentTalk.mk self)) (fun h => Ok (RHealth h))
  end.

(** The request an operation builds. *)
Definition request_of (self : HttpClient.t) (op : operation) : Request.t :=
  match op with
  | MemoCreate text voice =>
      HttpClient.build_request self "POST" "/api/v1/memo"
        (Some (JDict [("text", JStr text); ("voice", JStr voice)])) true
  | MemoDemo text voice =>
      HttpClient.build_request self "POST" "/api/v1/demo"
        (Some (JDict [("text", JStr text); ("voice", JStr voice)])) false
  | VoicesList | VoicesGet _ =>
      HttpClient.build_request self "GET" "/api/v1/voices" None false
  | Health => HttpClient.build_request self "GET" "/health" None false
  end.

(** What an operation makes of the value its request returned. *)
Definition mapper_of (op : operation) (response : value) : result returned :=
  match op with
  | MemoCreate _ _ | MemoDemo _ _ => m <- Memo_of_response response ;; Ok (RMemo m)
  | VoicesList => l <- Voices_of_response response ;; Ok (RVoices l)
  | VoicesGet voice_id =>
      l <- Voices_of_response response ;; Ok (RVoice (first_with_id voice_id l))
  | Health => h <- HealthResponse_of_response response ;; Ok (RHealth h)
  end.

(** The operations that ask for authentication: [memo.create] alone. *)
Definition requires_auth (op : operation) : bool :=
  match op with
  | MemoCreate _ _ => true
  | _ => false
  end.

(** A voices answer with two voices. *)
Definition example_voices_response : value :=
  JDict [("voices",
          JList [JDict [("id", JStr "rachel"); ("name", JStr "Rachel");
                        ("gender", JStr "female"); ("description", JStr "Calm")];
                 JDict [("id", JStr "adam"); ("name", JStr "Adam");
                        ("gender", JStr "male"); ("description", JStr "Deep")]])].

(** The same answer with the description of the second voice left out. *)
Definition broken_voices_response : value :=
  JDict [("voices",
          JList [JDict [("id", JStr "rachel"); ("name", JStr "Rachel");
                        ("gender", JStr "female"); ("description", JStr "Calm")];
                 JDict [("id", JStr "adam"); ("name", JStr "Adam");
                        ("gender", JStr "male")]])].

(** ** Notions for the behaviour of the error mapper *)

Definition is_dict (v : value) : bool :=
  match v with
  | JDict _ => true
  | _ => false
  end.

(** The codes whose factory reads the wire details with [get]. *)
Definition reads_details (code : value) : bool :=
  match code with
  | JStr c =>
      existsb (String.eqb c)
        [ "INVALID_INPUT"; "MISSING_FIELD"; "INVALID_VOICE"; "INSUFFICIENT_TIER";
          "MEMO_NOT_FOUND"; "DAILY_LIMIT_EXCEEDED"; "MONTHLY_LIMIT_EXCEEDED";
          "STORAGE_ERROR" ]
  | _ => false
  end.

(** The wire details from which the mapper can build its [details]: a value
    that is false, or a dict whose keys are fields of [ErrorDetails]. *)
Definition details_build (details_data : value) : Prop :=
  truthy details_data = false \/
  exists items, details_data = JDict items /\ known_keys items.

(** The class each code of the taxonomy is mapped to, by the name the class
    stores in its instances. *)
Definition class_names : list (string * string) :=
  [ ("VALIDATION_ERROR", "ValidationError"); ("INVALID_INPUT", "InvalidInputError");
    ("MISSING_FIELD", "MissingFieldError"); ("INVALID_VOICE", "InvalidVoiceError");
    ("UNAUTHORIZED", "UnauthorizedError"); ("MISSING_API_KEY", "MissingApiKeyError");
    ("INVALID_API_KEY", "InvalidApiKeyError"); ("EXPIRED_TOKEN", "ExpiredTokenError");
    ("FORBIDDEN", "ForbiddenError"); ("INSUFFICIENT_TIER", "InsufficientTierError");
    ("REVOKED_KEY", "RevokedKeyError"); ("NOT_FOUND", "NotFoundError");
    ("MEMO_NOT_FOUND", "MemoNotFoundError"); ("RATE_LIMIT_EXCEEDED", "RateLimitError");
    ("DAILY_LIMIT_EXCEEDED", "DailyLimitExceededError");
    ("MONTHLY_LIMIT_EXCEEDED", "MonthlyLimitExceededError");
    ("INTERNAL_ERROR", "InternalError"); ("TTS_SERVICE_ERROR", "TTSServiceError");
    ("STORAGE_ERROR", "StorageError"); ("NOT_IMPLEMENTED", "NotImplementedError");
    ("SERVICE_UNAVAILABLE", "ServiceUnavailableError") ].

(** The codes whose error carries the message of the envelope as it is. *)
Definition verbatim_codes : list string :=
  [ "VALIDATION_ERROR"; "UNAUTHORIZED"; "FORBIDDEN"; "RATE_LIMIT_EXCEEDED";
    "INTERNAL_ERROR"; "TTS_SERVICE_ERROR"; "SERVICE_UNAVAILABLE" ].

(** The codes whose error carries a text of the class, and the text. *)
Definition fixed_messages : list (string * string) :=
  [ ("MISSING_API_KEY", "API key is required"); ("INVALID_API_KEY", "Invalid API key");
    ("EXPIRED_TOKEN", "Token has expired"); ("REVOKED_KEY", "API key has been revoked");
    ("MEMO_NOT_FOUND", "Memo not found");
    ("DAILY_LIMIT_EXCEEDED", "Daily rate limit exceeded");
    ("MONTHLY_LIMIT_EXCEEDED", "Monthly rate limit exceeded");
    ("STORAGE_ERROR", "Storage operation failed") ].

(** An error body the mapper cannot read as an envelope: not an object, or
    an object whose [error] is not one. *)
Definition not_an_envelope (error_response : value) : Prop :=
  is_dict error_response = false \/
  exists items error_data,
    error_response = JDict items /\ lookup "error" items = Some error_data /\
    is_dict error_data = false.

(** ** orchestrator.py: which tasks to spawn *)

(** A value of the frontmatter of a task file, as [parse_task_frontmatter]
    builds them: a str, [True] or [False], or a list of strs. *)
Inductive fmval : Type :=
| FStr (s : string)
| FBool (b : bool)
| FList (items : list string).

(** The dependencies of a task as [read_task] leaves them: a str of the
    frontmatter has become a list by then, so they are a list of strs, or a
    bool. *)
Inductive deps : Type :=
| DepList (items : list string)
| DepBool (b : bool).

(** The lines of [read_task] on [depends_on]: absent is the empty list; the
    strs [[]] and the empty str are the empty list, another str is the list
    of that one dependency. *)
Definition read_depends_on (frontmatter_value : option fmval) : deps :=
  match frontmatter_value with
  | None => DepList []
  | Some (FStr s) =>
      if (String.eqb s "[]" || String.eqb s "")%bool then DepList [] else DepList [s]
  | Some (FBool b) => DepBool b
  | Some (FList l) => DepList l
  end.

(** The task dict of [read_task], with the status [get_all_tasks] writes
    over the one of the frontmatter. *)
Module Task.
Record t : Type := mk {
  filepath : string;
  id : fmval;
  priority : fmval;
  status : string;
  depends_on : deps;
  title : string;
  project : fmval;
  content : string
}.
End Task.

Definition MAX_PARALLEL : nat := 5.

(** [x in completed_tasks] for a str [x]; the set is given by its strs. *)
Definition mem (x : string) (completed_tasks : list string) : bool :=
  existsb (String.eqb x) completed_tasks.

(** The loop of [check_dependencies_met]: [False] at the first dependency
    that is not the empty str and is not completed. *)
Fixpoint all_deps_met (items : list string) (completed_tasks : list string) : bool :=
  match items with
  | [] => true
  | dep :: rest =>
      if (negb (String.eqb dep "") && negb (mem dep completed_tasks))%bool then false
      else all_deps_met rest completed_tasks
  end.

(** [check_dependencies_met(task, completed_tasks)]: dependencies that are
    false (an empty list, [False]) are met; [True] cannot be iterated. *)
Definition check_dependencies_met (task : Task.t) (completed_tasks : list string)
  : result bool :=
  match Task.depends_on task with
  | DepList [] => Ok true
  | DepBool false => Ok true
  | DepBool true => Raise TypeError
  | DepList items => Ok (all_deps_met items completed_tasks)
  end.

(** [needle in s] for two strs. *)
Fixpoint is_substring (needle s : string) : bool :=
  (String.prefix needle s ||
   match s with
   | EmptyString => false
   | String _ rest => is_substring needle rest
   end)%bool.

(** The filter of [main]:
    [t.get('project') == 'agent-talk' or 'agent-talk' in t['id']]. *)
Definition is_agent_talk (task : Task.t) : result bool :=
  match Task.project task with
  | FStr "agent-talk" => Ok true
  | _ =>
      match Task.id task with
      | FStr s => Ok (is_substring "agent-talk" s)
      | FList l => Ok (existsb (String.eqb "agent-talk") l)
      | FBool _ => Raise TypeError
      end
  end.

(** A comprehension with a condition: [[x for x in l if f(x)]]. *)
Fixpoint filter_result {A : Type} (f : A -> result bool) (l : list A) : result (list A) :=
  match l with
  | [] => Ok []
  | x :: rest =>
      keep <- f x ;;
      kept <- filter_result f rest ;;
      Ok (if keep then x :: kept else kept)
  end.

(** The condition of the loop over [agent_talk_tasks]: tasks whose status
    is not [todo] are skipped before their dependencies are looked at. *)
Definition is_ready (completed_tasks : list string) (task : Task.t) : result bool :=
  if String.eqb (Task.status task) "todo"
  then check_dependencies_met task completed_tasks
  else Ok false.

(** The sort key of [main]:
    [priority_order.get(t.get('priority', 'medium'), 1)]; a list is no key of
    a dict. *)
Definition priority_rank (task : Task.t) : result nat :=
  match Task.priority task with
  | FStr s =>
      Ok (if String.eqb s "high" then 0
          else if String.eqb s "medium" then 1
          else if String.eqb s "low" then 2
          else 1)%nat
  | FBool _ => Ok 1%nat
  | FList _ => Raise TypeError
  end.

(** [list.sort(key=...)] computes the key of every item, then sorts by the
    keys, stably.  Insertion from the right, before the first item whose key
    is not smaller, is such a sort. *)
Fixpoint insert_by_key {A : Type} (x : nat * A) (sorted : list (nat * A)) : list (nat * A) :=
  match sorted with
  | [] => [x]
  | y :: rest =>
      if (fst x <=? fst y)%nat then x :: sorted else y :: insert_by_key x rest
  end.

Definition sort_by_key {A : Type} (keyed : list (nat * A)) : list (nat * A) :=
  fold_right insert_by_key [] keyed.

(** The lines of [main] from [all_tasks] to [tasks_to_spawn]: the tasks of
    the project, those of them ready to run, sorted by priority, and the
    first [MAX_PARALLEL] of them, each with its sort key. *)
Definition keyed_tasks_to_spawn (all_tasks : list Task.t) (completed_tasks : list string)
  : result (list (nat * Task.t)) :=
  agent_talk_tasks <- filter_result is_agent_talk all_tasks ;;
  ready_tasks <- filter_result (is_ready completed_tasks) agent_talk_tasks ;;
  keyed <- comprehension (fun t => k <- priority_rank t ;; Ok (k, t)) ready_tasks ;;
  Ok (firstn MAX_PARALLEL (sort_by_key keyed)).

Definition tasks_to_spawn (all_tasks : list Task.t) (completed_tasks : list string)
  : result (list Task.t) :=
  keyed <- keyed_tasks_to_spawn all_tasks completed_tasks ;;
  Ok (map snd keyed).

(** A task that [main] would run now: of the project, still to do, with its
    dependencies met. *)
Definition ready (completed_tasks : list string) (task : Task.t) : Prop :=
  is_agent_talk task = Ok true /\
  Task.status task = "todo" /\
  check_dependencies_met task completed_tasks = Ok true.

(** A task whose frontmatter values have the expected types: a str for id
    and priority, a list for the dependencies. *)
Definition plain_task (task : Task.t) : Prop :=
  (exists s, Task.id task = FStr s) /\
  (exists s, Task.priority task = FStr s) /\
  (exists l, Task.depends_on task = DepList l).

(** The order of the keys. *)
Definition key_le {A : Type} (a b : nat * A) : Prop := (fst a <= fst b)%nat.

(** The order of two tasks by the rank of their priority. *)
Definition rank_le (t1 t2 : Task.t) : Prop :=
  exists k1 k2, priority_rank t1 = Ok k1 /\ priority_rank t2 = Ok k2 /\ (k1 <= k2)%nat.

(** Four task files: a low and a high priority task of the project, both to
    do, one task of the project in progress, and a task of another project. *)
Definition example_tasks : list Task.t :=
  [ Task.mk "task-001-docs.md" (FStr "task-001") (FStr "low") "todo"
      (DepList []) "Docs" (FStr "agent-talk") "";
    Task.mk "task-002-sdk.md" (FStr "task-002") (FStr "high") "todo"
      (DepList ["task-000"]) "SDK" (FStr "agent-talk") "";
    Task.mk "agent-talk-003.md" (FStr "agent-talk-003") (FStr "medium") "in-progress"
      (DepList []) "Voices" (FStr "") "";
    Task.mk "blog-001.md" (FStr "blog-001") (FStr "high") "todo"
      (DepList []) "Post" (FStr "blog") "" ].

(** The two tasks of [example_tasks] that a run chooses once [task-000] is
    completed, the high priority one first. *)
Definition example_chosen : list Task.t :=
  [ Task.mk "task-002-sdk.md" (FStr "task-002") (FStr "high") "todo"
      (DepList ["task-000"]) "SDK" (FStr "agent-talk") "";
    Task.mk "task-001-docs.md" (FStr "task-001") (FStr "low") "todo"
      (DepList []) "Docs" (FStr "agent-talk") "" ].

(** The field of a typed result that holds the wire field at a path: the
    renaming of the response mappers ([createdAt] to [created_at], [ttsMode]
    to [tts_mode]). *)
Definition typed_field (r : typed) (path : list string) : option value :=
  match r with
  | AMemo m =>
      match path with
      | ["id"] => Some (Memo.id m)
      | ["text"] => Some (Memo.text m)
      | ["voice"; "id"] => Some (MemoVoice.id (Memo.voice m))
      | ["voice"; "name"] => Some (MemoVoice.name (Memo.voice m))
      | ["voice"; "gender"] => Some (MemoVoice.gender (Memo.voice m))
      | ["voice"; "description"] => Some (MemoVoice.description (Memo.voice m))
      | ["audio"; "url"] => Some (MemoAudio.url (Memo.audio m))
      | ["audio"; "duration"] => Some (MemoAudio.duration (Memo.audio m))
      | ["audio"; "format"] => Some (MemoAudio.format (Memo.audio m))
      | ["createdAt"] => Some (Memo.created_at m)
      | _ => None
      end
  | AHealth h =>
      match path with
      | ["status"] => Some (HealthResponse.status h)
      | ["service"] => Some (HealthResponse.service h)
      | ["version"] => Some (HealthResponse.version h)
      | ["timestamp"] => Some (HealthResponse.timestamp h)
      | ["ttsMode"] => Some (HealthResponse.tts_mode h)
      | ["database"] => Some (HealthResponse.database h)
      | _ => None
      end
  end.

(** A health answer, with a field the mapper does not know. *)
Definition example_health_response : value :=
  JDict [("status", JStr "ok"); ("service", JStr "agent-talk"); ("version", JStr "1.0.0");
         ("timestamp", JStr "2024-01-01T00:00:00Z"); ("ttsMode", JStr "simulation");
         ("database", JDict []); ("uptime", JInt 42)].

(** A task of the project that is still to do and depends on nothing. *)
Definition todo_task (id priority : string) : Task.t :=
  Task.mk (id ++ ".md") (FStr id) (FStr priority) "todo" (DepList []) id
    (FStr "agent-talk") "".

(** Six ready tasks in the order of the folder, one more than a run takes. *)
Definition six_ready_tasks : list Task.t :=
  [ todo_task "task-011" "low"; todo_task "task-012" "high";
    todo_task "task-013" "medium"; todo_task "task-014" "low";
    todo_task "task-015" "high"; todo_task "task-016" "medium" ].

(** The five of them a run chooses: the two high ones, the two medium ones
    and the first low one; [task-014] is left out. *)
Definition five_chosen : list Task.t :=
  [ todo_task "task-012" "high"; todo_task "task-015" "high";
    todo_task "task-013" "medium"; todo_task "task-016" "medium";
    todo_task "task-011" "low" ].

(** How reading a path of a body fails, and with what: at a name that the
    object reached so far does not have, with the [KeyError] of that name; or
    at a value reached so far that is no object, with [TypeError]. *)
Inductive subscript_fails (response : value) (path : list string) : exn -> Prop :=
| fails_absent (prefix : list string) (k : string) (suffix : list string)
    (d : list (string * value)) :
    path = (prefix ++ k :: suffix)%list ->
    resolve response prefix = Some (JDict d) ->
    lookup k d = None ->
    subscript_fails response path (KeyError k)
| fails_no_object (prefix : list string) (k : string) (suffix : list string) (v : value) :
    path = (prefix ++ k :: suffix)%list ->
    resolve response prefix = Some v ->
    is_dict v = false ->
    subscript_fails response path TypeError.

(** ** Lemmas on the error mapper *)

Ltac each_code H :=
  simpl in H;
  repeat (destruct H as [H | H]; [ try (injection H as <- <-); try subst | ]);
  try contradiction.

(** The dataclass accepts a keyword argument for each of its fields. *)
Lemma set_known (k : string) (v : value) (d : ErrorDetails.t) :
  In k detail_fields -> exists d', ErrorDetails.set k v d = Some d'.
Proof.
  intros H. destruct d. each_code H; simpl; eauto.
Qed.

(** ... and for no other name. *)
Lemma set_unknown (k : string) (v : value) (d : ErrorDetails.t) :
  ~ In k detail_fields -> ErrorDetails.set k v d = None.
Proof.
  intros H. destruct d. unfold ErrorDetails.set.
  repeat match goal with
  | |- context [String.eqb k ?s] =>
      destruct (String.eqb_spec k s) as [-> | _];
      [ exfalso; apply H; simpl; tauto | ]
  end.
  reflexivity.
Qed.

(** A details object of known keys always builds an [ErrorDetails]. *)
Lemma from_kwargs_known (items : list (string * value)) :
  known_keys items ->
  forall d, exists d', ErrorDetails.from_kwargs items d = Some d'.
Proof.
  induction 1 as [| [k v] rest Hk _ IH]; intros d; simpl.
  - eauto.
  - destruct (set_known k v d Hk) as [d' ->]. apply IH.
Qed.

(** One key that is no field makes the construction fail, wherever it is. *)
Lemma from_kwargs_unknown (items : list (string * value)) :
  ~ known_keys items ->
  forall d, ErrorDetails.from_kwargs items d = None.
Proof.
  induction items as [| [k v] rest IH]; intros Hn d; simpl.
  - exfalso. apply Hn. constructor.
  - destruct (in_dec string_dec k detail_fields) as [Hk | Hk].
    + destruct (set_known k v d Hk) as [d' ->]. apply IH.
      intros Hr. apply Hn. constructor; assumption.
    + rewrite (set_unknown k v d Hk). reflexivity.
Qed.

(** The details line of the mapper succeeds on a dict of known keys. *)
Lemma details_of_known (items : list (string * value)) :
  known_keys items -> exists d, details_of (JDict items) = Ok d.
Proof.
  intros H. unfold details_of.
  destruct (truthy (JDict items)); [ | eauto ].
  destruct (from_kwargs_known items H ErrorDetails.empty) as [d ->]. eauto.
Qed.

(** ... and raises on a dict with any other key. *)
Lemma details_of_unknown (items : list (string * value)) :
  ~ known_keys items -> details_of (JDict items) = Raise TypeError.
Proof.
  intros H. unfold details_of.
  destruct items as [| kv rest].
  - exfalso. apply H. constructor.
  - simpl truthy. cbv iota. rewrite (from_kwargs_unknown _ H). reflexivity.
Qed.

(** Whatever a factory of the map returns carries the key it is filed under
    and the status the taxonomy declares for it. *)
Lemma factory_consistent (c : string) (message : value) (details : option ErrorDetails.t)
    (details_data : value) (factory : unit -> result AgentTalkError.t) (e : AgentTalkError.t) :
  factory_of c (error_map message details details_data) = Some factory ->
  factory tt = Ok e ->
  AgentTalkError.code e = JStr c /\ consistent e.
Proof.
  unfold error_map, consistent. simpl.
  repeat match goal with
  | |- context [String.eqb c ?s] =>
      destruct (String.eqb_spec c s) as [-> | _];
      [ intros [= <-]; destruct details_data; simpl; intros [= <-]; split; reflexivity | ]
  end.
  discriminate.
Qed.

(** The codes with a factory are those of the taxonomy table. *)
Lemma factory_iff_taxonomy (c : string) (message : value) (details : option ErrorDetails.t)
    (details_data : value) :
  In c (map fst spec_taxonomy) <->
  exists factory, factory_of c (error_map message details details_data) = Some factory.
Proof.
  split.
  - intros H. each_code H; simpl; eauto.
  - intros [factory H]. unfold error_map in H. simpl in H.
    repeat match type of H with
    | context [String.eqb c ?s] =>
        destruct (String.eqb_spec c s) as [-> | _]; [ simpl; tauto | ]
    end.
    discriminate.
Qed.

(** The mapper on an envelope with all three fields. *)
Lemma create_error_envelope (status_code : Z) (code message details_data : value) :
  create_error_from_response status_code (envelope code message details_data) =
  (details <- details_of details_data ;;
   if hashable code then
     match
       match code with
       | JStr c => factory_of c (error_map message details details_data)
       | _ => None
       end
     with
     | Some factory => factory tt
     | None => Ok (AgentTalkError code message status_code details)
     end
   else Raise TypeError).
Proof. reflexivity. Qed.

(** On details of known keys a code of the taxonomy maps to an error of that
    code and of the declared status, whatever the status of the call. *)
Lemma recognized_known_details_ok (status_code : Z) (c : string) (message : value)
    (items : list (string * value)) :
  In c (map fst spec_taxonomy) ->
  known_keys items ->
  exists e,
    create_error_from_response status_code (envelope (JStr c) message (JDict items)) = Ok e /\
    AgentTalkError.code e = JStr c /\ consistent e.
Proof.
  intros Hc Hk. rewrite create_error_envelope.
  destruct (details_of_known items Hk) as [d ->]. cbn [bind hashable].
  destruct (proj1 (factory_iff_taxonomy c message d (JDict items)) Hc) as [factory Hf].
  rewrite Hf.
  assert (exists e, factory tt = Ok e) as [e He].
  { clear Hk. each_code Hc; simpl in Hf; injection Hf as <-; simpl; eauto. }
  exists e. split; [ exact He | ]. exact (factory_consistent _ _ _ _ _ _ Hf He).
Qed.

(** An unrecognized, hashable code on details that build: the generic
    error, with the code, message and status of the call. *)
Lemma unrecognized_known_details_ok (status_code : Z) (code message : value)
    (items : list (string * value)) :
  hashable code = true ->
  taxonomy_status code = None ->
  known_keys items ->
  exists d,
    details_of (JDict items) = Ok d /\
    create_error_from_response status_code (envelope code message (JDict items)) =
    Ok (AgentTalkError code message status_code d).
Proof.
  intros Hh Hc Hk. rewrite create_error_envelope.
  destruct (details_of_known items Hk) as [d Hd]. exists d. split; [ exact Hd | ].
  rewrite Hd. cbn [bind]. rewrite Hh.
  destruct code as [ | | | | c | | ]; try reflexivity.
  destruct (factory_of c (error_map message d (JDict items))) as [factory |] eqn:Hf;
    [ | reflexivity ].
  assert (In c (map fst spec_taxonomy)) as Hin
    by (apply (factory_iff_taxonomy c message d (JDict items)); eauto).
  exfalso. clear Hf. simpl in Hc. each_code Hin; discriminate.
Qed.

(** ** Theorems on the error mapper *)

(** C1: a code of the taxonomy should map to an error of that code and of
    the declared status.  On the body of the repository's own test the mapper
    returns no error at all: building [ErrorDetails] from the details raises
    [TypeError] before the code is looked up, for every status of the call. *)
Theorem create_error_invalid_voice_test_raises (status_code : Z) :
  In ("INVALID_VOICE", 400) spec_taxonomy /\
  create_error_from_response status_code invalid_voice_test_body = Raise TypeError.
Proof.
  split; [ simpl; tauto | reflexivity ].
Qed.

(** C2: an unrecognized code should map to a generic error that keeps code,
    message, status and details, without ever raising.  With a details key
    that is no field of [ErrorDetails] the mapper raises [TypeError]
    instead of returning the generic error. *)
Theorem create_error_unknown_code_raises (status_code : Z) :
  taxonomy_status (JStr "TOTALLY_UNKNOWN") = None /\
  create_error_from_response status_code
    (envelope (JStr "TOTALLY_UNKNOWN") (JStr "Something went wrong")
       (JDict [("retryAfter", JInt 30)])) = Raise TypeError.
Proof.
  split; reflexivity.
Qed.

(** C6: the error of MEMO_NOT_FOUND should carry the memo id of the wire
    details.  The mapper reads the key [field] instead of [memo_id]: with
    details [{memo_id: "m1"}] the error's memo id is the empty str. *)
Theorem create_error_memo_not_found_drops_memo_id (status_code : Z) :
  exists e,
    create_error_from_response status_code
      (envelope (JStr "MEMO_NOT_FOUND") (JStr "Memo not found")
         (JDict [("memo_id", JStr "m1")])) = Ok e /\
    option_map ErrorDetails.memo_id (AgentTalkError.details e) = Some (JStr "") /\
    option_map ErrorDetails.memo_id (AgentTalkError.details e) <> Some (JStr "m1").
Proof.
  eexists. split; [ reflexivity | ]. split; [ reflexivity | discriminate ].
Qed.

(** C10: on an envelope whose code is in the taxonomy the outcome of the
    mapper, error returned or exception raised, does not depend on the
    status argument. *)
Theorem create_error_recognized_ignores_status (s1 s2 : Z) (error_response : value) :
  recognized error_response ->
  create_error_from_response s1 error_response =
  create_error_from_response s2 error_response.
Proof.
  intros [c [Hc Hin]]. unfold create_error_from_response, wire_code in *.
  destruct (py_get error_response "error" (JDict [])) as [error_data | x]; simpl in *;
    [ | reflexivity ].
  rewrite Hc. simpl.
  destruct (py_get error_data "message" (JStr "Unknown error")) as [message | x]; simpl;
    [ | reflexivity ].
  destruct (py_get error_data "details" (JDict [])) as [details_data | x]; simpl;
    [ | reflexivity ].
  destruct (details_of details_data) as [details | x]; simpl; [ | reflexivity ].
  destruct (proj1 (factory_iff_taxonomy c message details details_data) Hin) as [factory Hf].
  unfold error_map in Hf. simpl in Hf. rewrite Hf. reflexivity.
Qed.

(** A MISSING_FIELD envelope with a message and no details. *)
Lemma create_error_recognized_ignores_status_witness :
  create_error_from_response 400
    (JDict [("error", JDict [("code", JStr "MISSING_FIELD"); ("message", JStr "text")])]) =
  create_error_from_response 502
    (JDict [("error", JDict [("code", JStr "MISSING_FIELD"); ("message", JStr "text")])]).
Proof.
  apply (create_error_recognized_ignores_status 400 502).
  exists "MISSING_FIELD". split; [ reflexivity | simpl; tauto ].
Defined.

(** C5, as stated, fails: the param [field] of MISSING_FIELD, absent from the
    details, is replaced by the str [unknown], which is none of the empty
    str, zero and the empty list. *)
Lemma missing_field_placeholder_is_unknown :
  exists e,
    create_error_from_response 400
      (envelope (JStr "MISSING_FIELD") (JStr "text is required") (JDict [])) = Ok e /\
    option_map ErrorDetails.field (AgentTalkError.details e) = Some (JStr "unknown") /\
    ~ In (JStr "unknown") [JStr ""; JInt 0; JList []].
Proof.
  eexists. split; [ reflexivity | ]. split; [ reflexivity | ].
  simpl. intros [H | [H | [H | H]]]; try discriminate; contradiction.
Qed.

(** C5, amended: for a code of the taxonomy and a details object whose keys
    are fields of [ErrorDetails], the mapper returns an error, and each param
    the code reads from the details is the wire value when present and the
    code's placeholder when absent, as [placeholders] lists them. *)
Theorem create_error_recognized_placeholders (status_code : Z) (c : string)
    (message : value) (items : list (string * value)) :
  In c (map fst spec_taxonomy) ->
  known_keys items ->
  exists e,
    create_error_from_response status_code (envelope (JStr c) message (JDict items)) = Ok e /\
    forall p placeholder, In (p, placeholder) (placeholders c message) ->
      exists d, AgentTalkError.details e = Some d /\
                ErrorDetails.get p d = Some (items_get items p placeholder).
Proof.
  intros Hc Hk. rewrite create_error_envelope.
  destruct (details_of_known items Hk) as [d ->]. cbn [bind hashable].
  clear Hk.
  each_code Hc; simpl; (eexists; split; [ reflexivity | ]);
    intros p placeholder Hp; simpl in Hp;
    repeat (destruct Hp as [Hp | Hp]; [ injection Hp as <- <- | ]);
    try contradiction; eexists; split; reflexivity.
Qed.

(** DAILY_LIMIT_EXCEEDED with the counters and no reset time. *)
Lemma create_error_recognized_placeholders_witness :
  exists e,
    create_error_from_response 429
      (envelope (JStr "DAILY_LIMIT_EXCEEDED") (JStr "Daily rate limit exceeded")
         (JDict [("limit", JInt 100); ("used", JInt 100)])) = Ok e /\
    forall p placeholder,
      In (p, placeholder)
         (placeholders "DAILY_LIMIT_EXCEEDED" (JStr "Daily rate limit exceeded")) ->
      exists d, AgentTalkError.details e = Some d /\
                ErrorDetails.get p d =
                Some (items_get [("limit", JInt 100); ("used", JInt 100)] p placeholder).
Proof.
  apply (create_error_recognized_placeholders 429 "DAILY_LIMIT_EXCEEDED").
  - simpl; tauto.
  - apply Forall_cons; [ simpl; tauto | ].
    apply Forall_cons; [ simpl; tauto | apply Forall_nil ].
Defined.

(** ** Theorems on the transport *)

(** The result of [_request] is the one of [handle] on how the request ends. *)
Lemma request_result (self : HttpClient.t) (method path : string) (body : option value)
    (auth : bool) (w : world) :
  fst (HttpClient._request self method path body auth w) =
  HttpClient.handle
    (urlopen w (HttpClient.build_request self method path body auth) (HttpClient.timeout self)).
Proof.
  unfold HttpClient._request.
  destruct (urlopen w _ _) as [[ | v | ] | code reason [ | v | ] | reason | | name | ];
    reflexivity.
Qed.

(** The network is handed the request unless its URL is refused. *)
Lemma request_world (self : HttpClient.t) (method path : string) (body : option value)
    (auth : bool) (w : world) :
  snd (HttpClient._request self method path body auth w) =
  match urlopen w (HttpClient.build_request self method path body auth)
          (HttpClient.timeout self) with
  | InvalidURL => w
  | _ =>
      mkWorld (urlopen w)
        (List.app (calls w) [HttpClient.build_request self method path body auth])
  end.
Proof.
  unfold HttpClient._request.
  destruct (urlopen w _ _) as [[ | v | ] | code reason [ | v | ] | reason | | name | ];
    reflexivity.
Qed.

(** A code outside the taxonomy table has no declared status. *)
Lemma taxonomy_status_none (c : string) :
  ~ In c (map fst spec_taxonomy) -> taxonomy_status (JStr c) = None.
Proof.
  intros H. unfold taxonomy_status, spec_taxonomy. simpl.
  repeat match goal with
  | |- context [String.eqb c ?s] =>
      destruct (String.eqb_spec c s) as [-> | _];
      [ exfalso; apply H; simpl; tauto | ]
  end.
  reflexivity.
Qed.

(** An error the mapper returns is consistent with the taxonomy, or it is
    the generic error of a code outside it, with the status of the call. *)
Lemma create_error_ok_cases (status_code : Z) (error_response : value)
    (e : AgentTalkError.t) :
  create_error_from_response status_code error_response = Ok e ->
  consistent e \/
  (taxonomy_status (AgentTalkError.code e) = None /\
   AgentTalkError.status_code e = status_code).
Proof.
  unfold create_error_from_response.
  destruct (py_get error_response "error" (JDict [])) as [error_data | x];
    cbn [bind]; [ | discriminate ].
  destruct (py_get error_data "code" (JStr "INTERNAL_ERROR")) as [code | x];
    cbn [bind]; [ | discriminate ].
  destruct (py_get error_data "message" (JStr "Unknown error")) as [message | x];
    cbn [bind]; [ | discriminate ].
  destruct (py_get error_data "details" (JDict [])) as [details_data | x];
    cbn [bind]; [ | discriminate ].
  destruct (details_of details_data) as [details | x]; cbn [bind]; [ | discriminate ].
  destruct code as [ | b | n | r | c | l | d ]; cbn [hashable];
    try discriminate; try (intros [= <-]; right; split; reflexivity).
  destruct (factory_of c (error_map message details details_data)) as [factory |] eqn:Hf.
  - intros He. left. exact (proj2 (factory_consistent _ _ _ _ _ _ Hf He)).
  - intros [= <-]. right. split; [ | reflexivity ].
    apply taxonomy_status_none. intros Hin.
    apply (factory_iff_taxonomy c message details details_data) in Hin.
    destruct Hin as [factory Hin]. congruence.
Qed.

(** C4, as stated, fails on two paths of the transport: a timeout raises
    SERVICE_UNAVAILABLE with status 408, and an error answer whose body does
    not decode raises INTERNAL_ERROR with the HTTP status of the answer. *)
Lemma transport_errors_off_taxonomy :
  let client := HttpClient.init AgentTalkConfig.default in
  (exists e,
     fst (HttpClient._request client "GET" "/health" None false
            (fresh (fun _ _ => TimeoutError))) = Raise (SdkError e) /\
     AgentTalkError.code e = JStr "SERVICE_UNAVAILABLE" /\
     AgentTalkError.status_code e = 408 /\ ~ consistent e) /\
  (exists e,
     fst (HttpClient._request client "GET" "/health" None false
            (fresh (fun _ _ => HTTPError 502 "Bad Gateway" Malformed))) = Raise (SdkError e) /\
     AgentTalkError.code e = JStr "INTERNAL_ERROR" /\
     AgentTalkError.status_code e = 502 /\ ~ consistent e).
Proof.
  split; eexists; (split; [ reflexivity | ]); repeat split; discriminate.
Qed.

(** A factory of the map raises nothing but the [AttributeError] of a
    [get] on details that are no dict. *)
Lemma factory_raises (c : string) (message : value) (details : option ErrorDetails.t)
    (details_data : value) (factory : unit -> result AgentTalkError.t) (x : exn) :
  factory_of c (error_map message details details_data) = Some factory ->
  factory tt = Raise x ->
  x = AttributeError.
Proof.
  unfold error_map. simpl.
  repeat match goal with
  | |- context [String.eqb c ?s] =>
      destruct (String.eqb_spec c s) as [-> | _];
      [ intros [= <-]; destruct details_data; simpl; intros [= <-]; reflexivity | ]
  end.
  discriminate.
Qed.

(** The mapper raises Python's own exceptions only, never an SDK error. *)
Lemma create_error_raises_builtin (status_code : Z) (error_response : value) (x : exn) :
  create_error_from_response status_code error_response = Raise x ->
  x = TypeError \/ x = AttributeError.
Proof.
  assert (Hget : forall obj k d y, py_get obj k d = Raise y -> y = AttributeError).
  { intros obj k d y. destruct obj; simpl; intros [= <-]; reflexivity. }
  unfold create_error_from_response.
  destruct (py_get error_response "error" (JDict [])) as [error_data | y] eqn:E1;
    cbn [bind]; [ | intros [= <-]; right; eauto ].
  destruct (py_get error_data "code" (JStr "INTERNAL_ERROR")) as [code | y] eqn:E2;
    cbn [bind]; [ | intros [= <-]; right; eauto ].
  destruct (py_get error_data "message" (JStr "Unknown error")) as [message | y] eqn:E3;
    cbn [bind]; [ | intros [= <-]; right; eauto ].
  destruct (py_get error_data "details" (JDict [])) as [details_data | y] eqn:E4;
    cbn [bind]; [ | intros [= <-]; right; eauto ].
  destruct (details_of details_data) as [details | y] eqn:E5; cbn [bind].
  - destruct code as [ | b | n | r | c | l | d ]; cbn [hashable];
      try discriminate; try (intros [= <-]; left; reflexivity).
    destruct (factory_of c (error_map message details details_data)) as [factory |] eqn:Hf;
      [ | discriminate ].
    intros Hx. right. exact (factory_raises _ _ _ _ _ _ Hf Hx).
  - intros [= <-]. left. unfold details_of in E5.
    destruct (truthy details_data); [ | discriminate ].
    destruct details_data; try (injection E5 as <-; reflexivity).
    destruct (ErrorDetails.from_kwargs items ErrorDetails.empty);
      [ discriminate | injection E5 as <-; reflexivity ].
Qed.

(** C4, amended: an SDK error raised by the transport is consistent with the
    taxonomy, except on three paths: a timeout (SERVICE_UNAVAILABLE with 408),
    an error answer with an unrecognized code (the HTTP status kept), and an
    error answer whose body does not decode (INTERNAL_ERROR with the HTTP
    status kept). *)
Theorem request_error_status (self : HttpClient.t) (method path : string)
    (body : option value) (auth : bool) (w : world) (e : AgentTalkError.t) :
  fst (HttpClient._request self method path body auth w) = Raise (SdkError e) ->
  consistent e \/
  off_taxonomy
    (urlopen w (HttpClient.build_request self method path body auth)
       (HttpClient.timeout self)) e.
Proof.
  rewrite request_result.
  destruct (urlopen w _ _) as [answer | code reason answer | reason | | name | ];
    cbn [HttpClient.handle].
  - destruct answer; discriminate.
  - destruct answer as [ | error_response | ].
    + intros [= <-]. right.
      apply (off_undecodable _ _ code reason EmptyBody); try reflexivity. discriminate.
    + destruct (create_error_from_response code error_response) as [e' | x] eqn:He;
        cbn [bind].
      * intros [= <-].
        destruct (create_error_ok_cases _ _ _ He) as [Hc | [Hn Hs]]; [ left; exact Hc | ].
        right. exact (off_unrecognized _ _ code reason error_response eq_refl Hn Hs).
      * intros [= ->]. destruct (create_error_raises_builtin _ _ _ He); discriminate.
    + intros [= <-]. right.
      apply (off_undecodable _ _ code reason Malformed); try reflexivity. discriminate.
  - intros [= <-]. left. reflexivity.
  - intros [= <-]. right. apply off_timeout; reflexivity.
  - discriminate.
  - discriminate.
Qed.

(** A client with the default configuration, and a server that answers 429
    with a RATE_LIMIT_EXCEEDED envelope. *)
Lemma request_error_status_witness :
  let w := fresh (fun _ _ =>
             HTTPError 429 "Too Many Requests"
               (JsonText (envelope (JStr "RATE_LIMIT_EXCEEDED") (JStr "Slow down") (JDict [])))) in
  let self := HttpClient.init AgentTalkConfig.default in
  let e := RateLimitError (JStr "Slow down") in
  fst (HttpClient._request self "GET" "/api/v1/voices" None false w) = Raise (SdkError e) /\
  (consistent e \/
   off_taxonomy
     (urlopen w (HttpClient.build_request self "GET" "/api/v1/voices" None false)
        (HttpClient.timeout self)) e).
Proof.
  split; [ reflexivity | ].
  apply (request_error_status (HttpClient.init AgentTalkConfig.default)
           "GET" "/api/v1/voices" None false).
  reflexivity.
Defined.

(** The two failures the [except] clauses of [_request] catch, a refused
    connection that urllib reports as [URLError] and a [TimeoutError] raised
    in the [try] block, become SDK errors of code SERVICE_UNAVAILABLE, with
    status 503 for the first. *)
Lemma request_caught_failure (self : HttpClient.t) (method path : string)
    (body : option value) (auth : bool) (w : world) :
  let o := urlopen w (HttpClient.build_request self method path body auth)
             (HttpClient.timeout self) in
  caught_failure o = true ->
  exists e,
    fst (HttpClient._request self method path body auth w) = Raise (SdkError e) /\
    AgentTalkError.code e = JStr "SERVICE_UNAVAILABLE" /\
    (o <> TimeoutError -> AgentTalkError.status_code e = 503).
Proof.
  rewrite request_result.
  destruct (urlopen w _ _) as [answer | code reason answer | reason | | name | ];
    cbn [caught_failure HttpClient.handle]; try discriminate; intros _.
  - eexists. split; [ reflexivity | ]. split; reflexivity.
  - eexists. split; [ reflexivity | ]. split; [ reflexivity | ]. intros H. now contradict H.
Qed.

(** C8: every failure of the network and every timeout should surface as
    SERVICE_UNAVAILABLE.  They do not all: when the server closes the
    connection without an answer, [http.client.RemoteDisconnected] matches no
    [except] clause of [_request], and when the time runs out while the body
    of an error answer is read, the [TimeoutError] is raised inside the
    handler of [HTTPError]; both reach the caller of [health] as they are,
    and no SDK error is raised. *)
Theorem request_dropped_connection_escapes :
  let facade := AgentTalk.init None None None in
  let dropped := fresh (fun _ _ => OtherFailure "RemoteDisconnected") in
  let late := fresh (fun _ _ => OtherFailure "TimeoutError") in
  fst (AgentTalk.health facade dropped) = Raise (OtherException "RemoteDisconnected") /\
  fst (AgentTalk.health facade late) = Raise (OtherException "TimeoutError") /\
  (forall e, fst (AgentTalk.health facade dropped) <> Raise (SdkError e)) /\
  (forall e, fst (AgentTalk.health facade late) <> Raise (SdkError e)) /\
  caught_failure (OtherFailure "RemoteDisconnected") = false.
Proof.
  split; [ reflexivity | ]. split; [ reflexivity | ].
  split; [ intros e; discriminate | ]. split; [ intros e; discriminate | reflexivity ].
Qed.

(** ** Theorems on the response mappers and the facade *)

Lemma py_getitem_cases (obj : value) (k : string) :
  (exists d v, obj = JDict d /\ lookup k d = Some v /\ py_getitem obj k = Ok v) \/
  (exists x, py_getitem obj k = Raise x /\ builtin_lookup_error x).
Proof.
  unfold builtin_lookup_error.
  destruct obj as [ | b | n | r | s | l | d ]; simpl;
    try (right; exists TypeError; split; [ reflexivity | left; reflexivity ]).
  destruct (lookup k d) as [v |] eqn:L.
  - left. exists d, v. split; [ reflexivity | split; [ exact L | reflexivity ] ].
  - right. exists (KeyError k). split; [ reflexivity | right; exists k; reflexivity ].
Qed.

Ltac step_getitem :=
  match goal with
  | |- context [bind (py_getitem ?obj ?k) _] =>
      let d := fresh "d" in
      let v := fresh "v" in
      let x := fresh "x" in
      let E := fresh "E" in
      let L := fresh "L" in
      let G := fresh "G" in
      let B := fresh "B" in
      destruct (py_getitem_cases obj k) as [(d & v & E & L & G) | (x & G & B)];
      rewrite G; cbn [bind];
      [ try subst obj | right; exists x; split; [ reflexivity | exact B ] ]
  end.

(** The Memo mapper returns only when every required field resolves, and
    otherwise raises one of Python's lookup errors. *)
Lemma Memo_of_response_cases (response : value) :
  (exists m, Memo_of_response response = Ok m /\
             forall path, In path (required MemoShape) -> resolve response path <> None) \/
  (exists x, Memo_of_response response = Raise x /\ builtin_lookup_error x).
Proof.
  unfold Memo_of_response.
  repeat step_getitem.
  left. eexists. split; [ reflexivity | ].
  intros path Hp. simpl in Hp.
  repeat (destruct Hp as [Hp | Hp]; [ subst path | ]); try contradiction;
    simpl;
    repeat match goal with
    | H : lookup ?k ?d = Some _ |- context [lookup ?k ?d] => rewrite H
    | H : JDict _ = JDict _ |- _ => injection H as ->
    end;
    simpl;
    repeat match goal with
    | H : lookup ?k ?d = Some _ |- context [lookup ?k ?d] => rewrite H
    end;
    discriminate.
Qed.

(** The same for the health mapper. *)
Lemma HealthResponse_of_response_cases (response : value) :
  (exists h, HealthResponse_of_response response = Ok h /\
             forall path, In path (required HealthShape) -> resolve response path <> None) \/
  (exists x, HealthResponse_of_response response = Raise x /\ builtin_lookup_error x).
Proof.
  unfold HealthResponse_of_response.
  repeat step_getitem.
  left. eexists. split; [ reflexivity | ].
  intros path Hp. simpl in Hp.
  repeat (destruct Hp as [Hp | Hp]; [ subst path | ]); try contradiction;
    simpl;
    repeat match goal with
    | H : lookup ?k ?d = Some _ |- context [lookup ?k ?d] => rewrite H
    | H : JDict _ = JDict _ |- _ => injection H as ->
    end;
    discriminate.
Qed.

(** C7, as stated, fails: on the empty object, which the transport returns
    for a 2xx answer with an empty body, the Memo mapper raises Python's
    [KeyError] for [id], not an error of the SDK's type. *)
Lemma memo_missing_id_raises_key_error :
  missing_required MemoShape (JDict []) /\
  fst (MemoApi.create (HttpClient.init AgentTalkConfig.default) "hi" "rachel"
         (fresh (fun _ _ => Response EmptyBody))) = Raise (KeyError "id") /\
  map_response MemoShape (JDict []) = Raise (KeyError "id") /\
  ~ exists e, map_response MemoShape (JDict []) = Raise (SdkError e).
Proof.
  split; [ exists ["id"]; split; [ simpl; tauto | reflexivity ] | ].
  split; [ reflexivity | ]. split; [ reflexivity | ].
  intros [e H]. discriminate H.
Qed.

(** What the subscripts along a path raise is the [KeyError] of a name that
    is absent where it is looked up, or the [TypeError] of a value on the way
    that is no object. *)
Lemma lookup_error_fails (path : list string) :
  forall (response : value) (x : exn),
    lookup_error response path = Some x -> subscript_fails response path x.
Proof.
  induction path as [| k rest IH]; intros response x; cbn [lookup_error]; [ discriminate | ].
  destruct response as [ | b | n | r | str | l | d ];
    try (intros [= <-];
         apply (fails_no_object _ _ [] k rest _ eq_refl eq_refl); reflexivity).
  destruct (lookup k d) as [v |] eqn:E.
  - intros H. destruct (IH v x H) as [prefix k' suffix d' -> Hr Hl | prefix k' suffix v' -> Hr Hd].
    + apply (fails_absent _ _ (k :: prefix) k' suffix d'); [ reflexivity | | exact Hl ].
      cbn [resolve]. rewrite E. exact Hr.
    + apply (fails_no_object _ _ (k :: prefix) k' suffix v'); [ reflexivity | | exact Hd ].
      cbn [resolve]. rewrite E. exact Hr.
  - intros [= <-]. apply (fails_absent _ _ [] k rest d eq_refl eq_refl E).
Qed.

Ltac rewrite_lookups :=
  repeat match goal with E : lookup _ _ = _ |- _ => rewrite E end.

Ltac raises_at bef p aft x :=
  exists bef, p, aft, x;
  split; [ reflexivity | ];
  split; [ intros q Hq; simpl in Hq;
           repeat (destruct Hq as [Hq | Hq]; [ subst q | ]); try contradiction;
           cbn [resolve]; rewrite_lookups; discriminate | ];
  split; [ repeat (progress (cbn [resolve]; rewrite_lookups)); reflexivity | ];
  split; [ repeat (progress (cbn [lookup_error]; rewrite_lookups)); reflexivity | ];
  split; [ apply lookup_error_fails;
           repeat (progress (cbn [lookup_error]; rewrite_lookups)); reflexivity | ];
  split; [ unfold map_response, Memo_of_response, HealthResponse_of_response;
           repeat (progress (cbn [bind py_getitem]; rewrite_lookups)); reflexivity
         | intros e; discriminate ].

Ltac all_resolve H :=
  exfalso; destruct H as [q [Hq Hnone]]; simpl in Hq;
  repeat (destruct Hq as [Hq | Hq]; [ subst q | ]); try contradiction;
  cbn [resolve] in Hnone; revert Hnone; rewrite_lookups; discriminate.

(** C7, amended: when a required field is absent from a success body, the
    Memo mapper and the health mapper return no object.  They raise what the
    subscripts of the first required field that is absent, in the order the
    mapper reads them, raise: Python's own [KeyError] of the name that is
    absent, or [TypeError] when the value that should hold the name is no
    object; never an error of the SDK's type. *)
Theorem map_response_missing_field_raises (s : shape) (response : value) :
  missing_required s response ->
  exists before path after x,
    required s = (before ++ path :: after)%list /\
    (forall p, In p before -> resolve response p <> None) /\
    resolve response path = None /\
    lookup_error response path = Some x /\
    subscript_fails response path x /\
    map_response s response = Raise x /\
    (forall e, x <> SdkError e).
Proof.
  intros H. destruct s.
  - destruct response as [ | b | n | r | str | l | d ];
      try solve [ raises_at (@nil (list string)) ["id"] (tl (required MemoShape)) TypeError ].
    destruct (lookup "id" d) as [id |] eqn:E1;
      [ | raises_at (@nil (list string)) ["id"] (tl (required MemoShape)) (KeyError "id") ].
    destruct (lookup "text" d) as [text |] eqn:E2;
      [ | raises_at (firstn 1 (required MemoShape)) ["text"]
            (skipn 2 (required MemoShape)) (KeyError "text") ].
    destruct (lookup "voice" d) as [v |] eqn:Ev;
      [ | raises_at (firstn 2 (required MemoShape)) ["voice"; "id"]
            (skipn 3 (required MemoShape)) (KeyError "voice") ].
    destruct v as [ | b | n | r | str | l | dv ];
      try solve [ raises_at (firstn 2 (required MemoShape)) ["voice"; "id"]
                    (skipn 3 (required MemoShape)) TypeError ].
    destruct (lookup "id" dv) as [vid |] eqn:E3;
      [ | raises_at (firstn 2 (required MemoShape)) ["voice"; "id"]
            (skipn 3 (required MemoShape)) (KeyError "id") ].
    destruct (lookup "name" dv) as [vname |] eqn:E4;
      [ | raises_at (firstn 3 (required MemoShape)) ["voice"; "name"]
            (skipn 4 (required MemoShape)) (KeyError "name") ].
    destruct (lookup "gender" dv) as [vgender |] eqn:E5;
      [ | raises_at (firstn 4 (required MemoShape)) ["voice"; "gender"]
            (skipn 5 (required MemoShape)) (KeyError "gender") ].
    destruct (lookup "description" dv) as [vdescription |] eqn:E6;
      [ | raises_at (firstn 5 (required MemoShape)) ["voice"; "description"]
            (skipn 6 (required MemoShape)) (KeyError "description") ].
    destruct (lookup "audio" d) as [a |] eqn:Ea;
      [ | raises_at (firstn 6 (required MemoShape)) ["audio"; "url"]
            (skipn 7 (required MemoShape)) (KeyError "audio") ].
    destruct a as [ | b | n | r | str | l | da ];
      try solve [ raises_at (firstn 6 (required MemoShape)) ["audio"; "url"]
                    (skipn 7 (required MemoShape)) TypeError ].
    destruct (lookup "url" da) as [aurl |] eqn:E7;
      [ | raises_at (firstn 6 (required MemoShape)) ["audio"; "url"]
            (skipn 7 (required MemoShape)) (KeyError "url") ].
    destruct (lookup "duration" da) as [aduration |] eqn:E8;
      [ | raises_at (firstn 7 (required MemoShape)) ["audio"; "duration"]
            (skipn 8 (required MemoShape)) (KeyError "duration") ].
    destruct (lookup "format" da) as [aformat |] eqn:E9;
      [ | raises_at (firstn 8 (required MemoShape)) ["audio"; "format"]
            (skipn 9 (required MemoShape)) (KeyError "format") ].
    destruct (lookup "createdAt" d) as [created |] eqn:E10;
      [ | raises_at (firstn 9 (required MemoShape)) ["createdAt"]
            (@nil (list string)) (KeyError "createdAt") ].
    all_resolve H.
  - destruct response as [ | b | n | r | str | l | d ];
      try solve [ raises_at (@nil (list string)) ["status"]
                    (tl (required HealthShape)) TypeError ].
    destruct (lookup "status" d) as [status |] eqn:E1;
      [ | raises_at (@nil (list string)) ["status"] (tl (required HealthShape))
            (KeyError "status") ].
    destruct (lookup "service" d) as [service |] eqn:E2;
      [ | raises_at (firstn 1 (required HealthShape)) ["service"]
            (skipn 2 (required HealthShape)) (KeyError "service") ].
    destruct (lookup "version" d) as [version |] eqn:E3;
      [ | raises_at (firstn 2 (required HealthShape)) ["version"]
            (skipn 3 (required HealthShape)) (KeyError "version") ].
    destruct (lookup "timestamp" d) as [timestamp |] eqn:E4;
      [ | raises_at (firstn 3 (required HealthShape)) ["timestamp"]
            (skipn 4 (required HealthShape)) (KeyError "timestamp") ].
    destruct (lookup "ttsMode" d) as [tts |] eqn:E5;
      [ | raises_at (firstn 4 (required HealthShape)) ["ttsMode"]
            (skipn 5 (required HealthShape)) (KeyError "ttsMode") ].
    destruct (lookup "database" d) as [database |] eqn:E6;
      [ | raises_at (firstn 5 (required HealthShape)) ["database"]
            (@nil (list string)) (KeyError "database") ].
    all_resolve H.
Qed.

(** A memo body whose voice lacks its name and whose audio is absent: the
    name of the voice is the first required field that is absent. *)
Lemma map_response_missing_field_raises_witness :
  exists before path after x,
    required MemoShape = (before ++ path :: after)%list /\
    (forall p, In p before -> resolve voiceless_memo_response p <> None) /\
    resolve voiceless_memo_response path = None /\
    lookup_error voiceless_memo_response path = Some x /\
    subscript_fails voiceless_memo_response path x /\
    map_response MemoShape voiceless_memo_response = Raise x /\
    (forall e, x <> SdkError e).
Proof.
  apply (map_response_missing_field_raises MemoShape voiceless_memo_response).
  exists ["audio"; "url"]. split; [ simpl; tauto | reflexivity ].
Defined.

(** The first absent field of that body is the name of the voice, and the
    mapper raises the [KeyError] of [name]. *)
Lemma voiceless_memo_raises_key_error_name :
  lookup_error voiceless_memo_response ["voice"; "name"] = Some (KeyError "name") /\
  map_response MemoShape voiceless_memo_response = Raise (KeyError "name").
Proof.
  split; reflexivity.
Qed.

(** C9: the example response maps to the Memo with the same values, the
    wire field [createdAt] becoming [created_at]; and so does [memo.create]
    of the client of the default configuration, called with the text and the
    voice of the example, on a server that answers with it. *)
Theorem example_memo_maps :
  let memo :=
    {| Memo.id := JStr "m1";
       Memo.text := JStr "hi";
       Memo.voice :=
         {| MemoVoice.id := JStr "rachel"; MemoVoice.name := JStr "Rachel";
            MemoVoice.gender := JStr "female"; MemoVoice.description := JStr "Calm" |};
       Memo.audio :=
         {| MemoAudio.url := JStr "https://x/a.mp3"; MemoAudio.duration := JFloat "1.5";
            MemoAudio.format := JStr "mp3" |};
       Memo.created_at := JStr "2024-01-01T00:00:00Z" |} in
  Memo_of_response example_memo_response = Ok memo /\
  Memo.created_at memo = JStr "2024-01-01T00:00:00Z" /\
  fst (MemoApi.create (HttpClient.init AgentTalkConfig.default) "hi" "rachel"
         (fresh (fun _ _ => Response (JsonText example_memo_response)))) = Ok memo.
Proof.
  split; [ reflexivity | ]. split; reflexivity.
Qed.

(** On a client built without API key [memo.create] hands the network,
    unless the URL is refused, exactly one request, which carries no
    Authorization header; its result is what the answer maps to, and it is
    MISSING_API_KEY only when the server answers with an error envelope of
    that code. *)
Lemma create_without_api_key_defers_to_server (text voice : string)
    (net : Request.t -> Z -> outcome) :
  let self := AgentTalk.init None None None in
  (net (keyless_create_request text voice) 30 <> InvalidURL ->
   calls (snd (AgentTalk.memo_create self text voice (fresh net))) =
     [keyless_create_request text voice]) /\
  fst (AgentTalk.memo_create self text voice (fresh net)) =
    (response <- HttpClient.handle (net (keyless_create_request text voice) 30) ;;
     Memo_of_response response) /\
  (forall (status : Z) (reason : string) (message : value),
     fst (AgentTalk.memo_create self text voice
            (fresh (fun _ _ =>
               HTTPError status reason
                 (JsonText (envelope (JStr "MISSING_API_KEY") message (JDict []))))))
     = Raise (SdkError MissingApiKeyError)).
Proof.
  split; [ | split; [ | intros; reflexivity ] ].
  - intros Hn. unfold AgentTalk.memo_create, MemoApi.create, bindIO, HttpClient.post.
    pose proof (request_world (AgentTalk._client (AgentTalk.init None None None))
                  "POST" "/api/v1/memo"
                  (Some (JDict [("text", JStr text); ("voice", JStr voice)])) true
                  (fresh net)) as Hw.
    destruct (HttpClient._request _ _ _ _ _ _) as [r w'] eqn:E. cbn [snd] in *.
    rewrite Hw. change (urlopen (fresh net)) with net.
    change (HttpClient.build_request _ _ _ _ _) with (keyless_create_request text voice).
    change (HttpClient.timeout _) with 30.
    destruct (net (keyless_create_request text voice) 30); try reflexivity. contradiction.
  - unfold AgentTalk.memo_create, MemoApi.create, bindIO, HttpClient.post.
    pose proof (request_result (AgentTalk._client (AgentTalk.init None None None))
                  "POST" "/api/v1/memo"
                  (Some (JDict [("text", JStr text); ("voice", JStr voice)])) true
                  (fresh net)) as Hr.
    destruct (HttpClient._request _ _ _ _ _ _) as [r w'] eqn:E. cbn [fst] in *.
    rewrite Hr. reflexivity.
Qed.

(** C3: [memo.create] should fail with MISSING_API_KEY before any request
    when no API key is configured, a transport stub seeing no invocation.
    It does not: on a client built without a key and a stub that answers
    with a memo, the call returns the Memo and the stub has been invoked
    once. *)
Theorem create_without_api_key_invokes_stub :
  let run :=
    AgentTalk.memo_create (AgentTalk.init None None None) "hi" "rachel"
      (fresh (fun _ _ => Response (JsonText example_memo_response))) in
  HttpClient.api_key (AgentTalk._client (AgentTalk.init None None None)) = None /\
  (exists memo, fst run = Ok memo) /\
  calls (snd run) = [keyless_create_request "hi" "rachel"] /\
  List.length (calls (snd run)) <> 0%nat.
Proof.
  split; [ reflexivity | ]. split; [ eexists; reflexivity | ].
  split; [ reflexivity | discriminate ].
Qed.

(** ** The voices API *)

(** An item maps to a voice exactly when it has the four fields; otherwise
    the subscript raises. *)
Lemma Voice_of_item_cases (item : value) :
  (exists voice, Voice_of_item item = Ok voice /\ voice_item item /\ voice_matches item voice) \/
  (exists x, Voice_of_item item = Raise x /\ builtin_lookup_error x /\ ~ voice_item item).
Proof.
  unfold Voice_of_item, voice_item, voice_matches, builtin_lookup_error.
  destruct item as [ | b | n | r | s | l | d ];
    try (right; exists TypeError; split; [ reflexivity | ];
         split; [ left; reflexivity | ];
         intros (d & i & n' & g & de & H & _); discriminate H).
  cbn [py_getitem].
  destruct (lookup "id" d) as [id |] eqn:Eid; cbn [bind].
  2: { right. exists (KeyError "id"). split; [ reflexivity | ].
       split; [ right; eauto | ].
       intros (d' & i & n' & g & de & [= <-] & H & _). congruence. }
  destruct (lookup "name" d) as [name |] eqn:Ename; cbn [bind].
  2: { right. exists (KeyError "name"). split; [ reflexivity | ].
       split; [ right; eauto | ].
       intros (d' & i & n' & g & de & [= <-] & _ & H & _). congruence. }
  destruct (lookup "gender" d) as [gender |] eqn:Egender; cbn [bind].
  2: { right. exists (KeyError "gender"). split; [ reflexivity | ].
       split; [ right; eauto | ].
       intros (d' & i & n' & g & de & [= <-] & _ & _ & H & _). congruence. }
  destruct (lookup "description" d) as [description |] eqn:Edescription; cbn [bind].
  2: { right. exists (KeyError "description"). split; [ reflexivity | ].
       split; [ right; eauto | ].
       intros (d' & i & n' & g & de & [= <-] & _ & _ & _ & H). congruence. }
  left. eexists. split; [ reflexivity | ]. split.
  - exists d, id, name, gender, description. repeat split; assumption.
  - cbn. repeat split.
Qed.

(** When every item has the four fields the comprehension returns one voice
    per item, in the order of the items. *)
Lemma comprehension_voices_ok (items : list value) :
  Forall voice_item items ->
  exists voices,
    comprehension Voice_of_item items = Ok voices /\ Forall2 voice_matches items voices.
Proof.
  induction 1 as [| item rest Hitem _ [voices [IH1 IH2]]]; cbn [comprehension].
  - exists []. split; [ reflexivity | constructor ].
  - destruct (Voice_of_item_cases item) as [(voice & -> & _ & Hm) | (x & _ & _ & Hn)];
      [ | contradiction ].
    cbn [bind]. rewrite IH1. cbn [bind].
    exists (voice :: voices). split; [ reflexivity | constructor; assumption ].
Qed.

(** One item without one of the four fields makes the whole comprehension
    raise. *)
Lemma comprehension_voices_raises (items : list value) (item : value) :
  In item items -> ~ voice_item item ->
  exists x, comprehension Voice_of_item items = Raise x /\ builtin_lookup_error x.
Proof.
  induction items as [| first rest IH]; intros Hin Hbad; [ contradiction | ].
  cbn [comprehension].
  destruct (Voice_of_item_cases first) as [(voice & -> & Hok & _) | (x & -> & Hx & _)];
    cbn [bind].
  - destruct Hin as [-> | Hin]; [ contradiction | ].
    destruct (IH Hin Hbad) as [x [-> Hx]]. cbn [bind]. exists x. split; [ reflexivity | exact Hx ].
  - exists x. split; [ reflexivity | exact Hx ].
Qed.

(** X1: when the server answers [voices.list] with a list whose items all
    have the four fields, the call returns one Voice per item, in the
    server's order, each with the fields of its item. *)
Theorem voices_list_keeps_server_order (self : HttpClient.t) (w : world)
    (response : value) (items : list value) :
  urlopen w (HttpClient.build_request self "GET" "/api/v1/voices" None false)
    (HttpClient.timeout self) = Response (JsonText response) ->
  py_getitem response "voices" = Ok (JList items) ->
  Forall voice_item items ->
  exists voices,
    fst (VoicesApi.list self w) = Ok voices /\
    Forall2 voice_matches items voices /\
    List.length voices = List.length items.
Proof.
  intros Hnet Hv Hall.
  destruct (comprehension_voices_ok items Hall) as [voices [Hc Hm]].
  exists voices. split; [ | split; [ exact Hm | symmetry; exact (Forall2_length Hm) ] ].
  unfold VoicesApi.list, bindIO, HttpClient.get, HttpClient._request.
  cbn [fst]. rewrite Hnet. cbn [HttpClient.handle bind].
  unfold Voices_of_response. rewrite Hv. cbn [bind py_iter]. exact Hc.
Qed.

(** X2: when one item of the answered list lacks one of the four fields,
    [voices.list] returns no partial list: the call raises Python's
    [KeyError] or [TypeError]. *)
Theorem voices_list_all_or_nothing (self : HttpClient.t) (w : world)
    (response : value) (items : list value) (item : value) :
  urlopen w (HttpClient.build_request self "GET" "/api/v1/voices" None false)
    (HttpClient.timeout self) = Response (JsonText response) ->
  py_getitem response "voices" = Ok (JList items) ->
  In item items -> ~ voice_item item ->
  exists x, fst (VoicesApi.list self w) = Raise x /\ builtin_lookup_error x.
Proof.
  intros Hnet Hv Hin Hbad.
  destruct (comprehension_voices_raises items item Hin Hbad) as [x [Hc Hx]].
  exists x. split; [ | exact Hx ].
  unfold VoicesApi.list, bindIO, HttpClient.get, HttpClient._request.
  cbn [fst]. rewrite Hnet. cbn [HttpClient.handle bind].
  unfold Voices_of_response. rewrite Hv. cbn [bind py_iter]. exact Hc.
Qed.

(** [v == s] holds for the str [s] alone. *)
Lemma eq_str_true (v : value) (s : string) : eq_str v s = true <-> v = JStr s.
Proof.
  destruct v; simpl; try (split; [ discriminate | intros [=] ]).
  rewrite String.eqb_eq. split; [ intros -> | intros [= ->] ]; reflexivity.
Qed.

(** The scan of [VoicesApi.get] finds the first voice of the id, or none
    when no voice has it. *)
Lemma first_with_id_spec (voice_id : string) (voices : list Voice.t) :
  match first_with_id voice_id voices with
  | Some voice =>
      exists before after,
        voices = (before ++ voice :: after)%list /\
        Voice.id voice = JStr voice_id /\
        forall other, In other before -> Voice.id other <> JStr voice_id
  | None => forall voice, In voice voices -> Voice.id voice <> JStr voice_id
  end.
Proof.
  induction voices as [| voice rest IH]; cbn [first_with_id].
  - intros voice [].
  - destruct (eq_str (Voice.id voice) voice_id) eqn:E.
    + exists [], rest. split; [ reflexivity | ].
      split; [ apply eq_str_true; exact E | intros other [] ].
    + assert (Hne : Voice.id voice <> JStr voice_id).
      { intros H. apply eq_str_true in H. congruence. }
      destruct (first_with_id voice_id rest) as [found |].
      * destruct IH as (before & after & -> & Hid & Hbefore).
        exists (voice :: before), after. split; [ reflexivity | ].
        split; [ exact Hid | ].
        intros other [<- | Hin]; [ exact Hne | exact (Hbefore other Hin) ].
      * intros other [<- | Hin]; [ exact Hne | exact (IH other Hin) ].
Qed.

(** X3: when [voices.list] returns, [voices.get] returns too, after the same
    single request: the first voice of the list whose id is the one asked
    for, and [None], not an error, when no voice has that id. *)
Theorem voices_get_first_match (self : HttpClient.t) (w : world) (voice_id : string)
    (voices : list Voice.t) :
  fst (VoicesApi.list self w) = Ok voices ->
  exists found,
    fst (VoicesApi.get self voice_id w) = Ok found /\
    snd (VoicesApi.get self voice_id w) = snd (VoicesApi.list self w) /\
    match found with
    | Some voice =>
        exists before after,
          voices = (before ++ voice :: after)%list /\
          Voice.id voice = JStr voice_id /\
          forall other, In other before -> Voice.id other <> JStr voice_id
    | None => forall voice, In voice voices -> Voice.id voice <> JStr voice_id
    end.
Proof.
  intros Hlist. exists (first_with_id voice_id voices).
  unfold VoicesApi.get, bindIO in *.
  destruct (VoicesApi.list self w) as [r w'] eqn:E. cbn [fst snd] in *. subst r.
  split; [ reflexivity | ]. split; [ reflexivity | ].
  apply first_with_id_spec.
Qed.

Lemma voices_list_keeps_server_order_witness :
  exists voices,
    fst (VoicesApi.list (HttpClient.init AgentTalkConfig.default)
           (fresh (fun _ _ => Response (JsonText example_voices_response)))) = Ok voices /\
    Forall2 voice_matches
      [JDict [("id", JStr "rachel"); ("name", JStr "Rachel");
              ("gender", JStr "female"); ("description", JStr "Calm")];
       JDict [("id", JStr "adam"); ("name", JStr "Adam");
              ("gender", JStr "male"); ("description", JStr "Deep")]] voices /\
    List.length voices = 2%nat.
Proof.
  apply (voices_list_keeps_server_order (HttpClient.init AgentTalkConfig.default)
           (fresh (fun _ _ => Response (JsonText example_voices_response)))
           example_voices_response).
  - reflexivity.
  - reflexivity.
  - apply Forall_cons; [ | apply Forall_cons; [ | apply Forall_nil ] ];
      eexists _, _, _, _, _; repeat split; reflexivity.
Defined.

Lemma voices_list_all_or_nothing_witness :
  exists x,
    fst (VoicesApi.list (HttpClient.init AgentTalkConfig.default)
           (fresh (fun _ _ => Response (JsonText broken_voices_response)))) = Raise x /\
    builtin_lookup_error x.
Proof.
  apply (voices_list_all_or_nothing (HttpClient.init AgentTalkConfig.default)
           (fresh (fun _ _ => Response (JsonText broken_voices_response)))
           broken_voices_response
           [JDict [("id", JStr "rachel"); ("name", JStr "Rachel");
                   ("gender", JStr "female"); ("description", JStr "Calm")];
            JDict [("id", JStr "adam"); ("name", JStr "Adam"); ("gender", JStr "male")]]
           (JDict [("id", JStr "adam"); ("name", JStr "Adam"); ("gender", JStr "male")])).
  - reflexivity.
  - reflexivity.
  - simpl. tauto.
  - intros (d & i & n & g & de & [= <-] & _ & _ & _ & H). discriminate H.
Defined.

Lemma voices_get_first_match_witness :
  exists found,
    fst (VoicesApi.get (HttpClient.init AgentTalkConfig.default) "nonexistent"
           (fresh (fun _ _ => Response (JsonText example_voices_response)))) = Ok found /\
    snd (VoicesApi.get (HttpClient.init AgentTalkConfig.default) "nonexistent"
           (fresh (fun _ _ => Response (JsonText example_voices_response)))) =
    snd (VoicesApi.list (HttpClient.init AgentTalkConfig.default)
           (fresh (fun _ _ => Response (JsonText example_voices_response)))) /\
    match found with
    | Some voice =>
        exists before after,
          [ Voice.mk (JStr "rachel") (JStr "Rachel") (JStr "female") (JStr "Calm");
            Voice.mk (JStr "adam") (JStr "Adam") (JStr "male") (JStr "Deep") ] =
          (before ++ voice :: after)%list /\
          Voice.id voice = JStr "nonexistent" /\
          forall other, In other before -> Voice.id other <> JStr "nonexistent"
    | None =>
        forall voice,
          In voice [ Voice.mk (JStr "rachel") (JStr "Rachel") (JStr "female") (JStr "Calm");
                     Voice.mk (JStr "adam") (JStr "Adam") (JStr "male") (JStr "Deep") ] ->
          Voice.id voice <> JStr "nonexistent"
    end.
Proof.
  apply (voices_get_first_match (HttpClient.init AgentTalkConfig.default)
           (fresh (fun _ _ => Response (JsonText example_voices_response)))).
  reflexivity.
Defined.

(** ** The transport and the facade *)


(** An operation is its request, then its mapper. *)
Lemma run_result (self : HttpClient.t) (op : operation) (w : world) :
  fst (run self op w) =
  (response <- HttpClient.handle
                 (urlopen w (request_of self op) (HttpClient.timeout self)) ;;
   mapper_of op response).
Proof.
  destruct op;
    unfold run, request_of, mapper_of, MemoApi.create, MemoApi.demo, VoicesApi.get,
      VoicesApi.list, AgentTalk.health, bindIO, HttpClient.post, HttpClient.get,
      HttpClient._request;
    cbn [AgentTalk._client];
    destruct (urlopen w _ _) as [[ | v | ] | code reason [ | v | ] | reason | | name | ];
    cbn [fst HttpClient.handle bind];
    try reflexivity;
    try (destruct (create_error_from_response code v); reflexivity);
    try (destruct (Memo_of_response _); reflexivity);
    try (destruct (Voices_of_response _); reflexivity);
    try (destruct (HealthResponse_of_response _); reflexivity).
Qed.


(** X5: the API key leaves the client on [memo.create] only.  The request of
    an operation that asks for no authentication carries no Authorization
    header, whatever key the client holds; the one of [memo.create] carries
    the key as a bearer credential when it is a non-empty str, and no such
    header otherwise. *)
Theorem authorization_only_on_create (self : HttpClient.t) (op : operation) :
  header "Authorization" (Request.headers (request_of self op)) =
  match HttpClient.api_key self with
  | Some key =>
      if (requires_auth op && negb (String.eqb key ""))%bool
      then Some ("Bearer " ++ key) else None
  | None => None
  end.
Proof.
  destruct self as [base [key |] secs]; destruct op; cbn; try reflexivity.
  destruct (String.eqb key ""); reflexivity.
Qed.

(** X6: what the transport raises, an operation raises unchanged: the
    facade catches nothing and wraps nothing. *)
Theorem run_propagates_transport_error (self : HttpClient.t) (op : operation)
    (w : world) (x : exn) :
  HttpClient.handle (urlopen w (request_of self op) (HttpClient.timeout self)) = Raise x ->
  fst (run self op w) = Raise x.
Proof.
  intros H. rewrite run_result, H. reflexivity.
Qed.

Lemma run_propagates_transport_error_witness :
  fst (run (HttpClient.init AgentTalkConfig.default) (VoicesGet "rachel")
         (fresh (fun _ _ => URLError "timed out"))) =
  Raise (SdkError (AgentTalkError (JStr "SERVICE_UNAVAILABLE")
                     (JStr "Network error: Unable to connect to Agent Talk API: timed out")
                     503 None)).
Proof.
  apply (run_propagates_transport_error (HttpClient.init AgentTalkConfig.default)
           (VoicesGet "rachel") (fresh (fun _ _ => URLError "timed out"))).
  reflexivity.
Defined.

(** X7: the transport returns a value on a 2xx answer only: the empty object
    for an empty body, the decoded value otherwise.  An HTTP error, a
    connection failure or a timeout never yields a value. *)
Theorem request_returns_on_success_only (self : HttpClient.t) (method path : string)
    (body : option value) (auth : bool) (w : world) (v : value) :
  fst (HttpClient._request self method path body auth w) = Ok v ->
  exists answer,
    urlopen w (HttpClient.build_request self method path body auth)
      (HttpClient.timeout self) = Response answer /\
    (answer = EmptyBody /\ v = JDict [] \/ answer = JsonText v).
Proof.
  rewrite request_result.
  destruct (urlopen w _ _) as [answer | code reason answer | reason | | name | ];
    cbn [HttpClient.handle].
  - destruct answer as [ | v' | ]; intros [= <-]; eexists; split; eauto.
  - destruct answer as [ | error_response | ]; try discriminate.
    destruct (create_error_from_response code error_response); discriminate.
  - discriminate.
  - discriminate.
  - discriminate.
  - discriminate.
Qed.

Lemma request_returns_on_success_only_witness :
  exists answer,
    urlopen (fresh (fun _ _ => Response EmptyBody))
      (HttpClient.build_request (HttpClient.init AgentTalkConfig.default)
         "DELETE" "/api/v1/memo/m1" None true)
      (HttpClient.timeout (HttpClient.init AgentTalkConfig.default)) = Response answer /\
    (answer = EmptyBody /\ JDict [] = JDict [] \/ answer = JsonText (JDict [])).
Proof.
  apply (request_returns_on_success_only (HttpClient.init AgentTalkConfig.default)
           "DELETE" "/api/v1/memo/m1" None true (fresh (fun _ _ => Response EmptyBody))).
  reflexivity.
Defined.

(** The response mappers raise Python's lookup errors only. *)
Lemma Voices_of_response_raises (response : value) (x : exn) :
  Voices_of_response response = Raise x -> builtin_lookup_error x.
Proof.
  unfold Voices_of_response.
  destruct (py_getitem_cases response "voices") as [(d & v & _ & _ & ->) | (y & -> & Hy)];
    cbn [bind]; [ | intros [= <-]; exact Hy ].
  assert (Hc : forall items y,
             comprehension Voice_of_item items = Raise y -> builtin_lookup_error y).
  { induction items as [| item rest IH]; intros y; cbn [comprehension]; [ discriminate | ].
    destruct (Voice_of_item_cases item) as [(voice & -> & _) | (z & -> & Hz & _)];
      cbn [bind]; [ | intros [= <-]; exact Hz ].
    destruct (comprehension Voice_of_item rest) as [vs | z]; cbn [bind];
      [ discriminate | intros [= <-]; apply IH; reflexivity ]. }
  destruct v; cbn [py_iter bind]; try (intros [= <-]; left; reflexivity); apply Hc.
Qed.

(** X8: an SDK error that an operation raises was raised by the transport:
    the response mappers raise Python's own exceptions only. *)
Theorem run_sdk_error_from_transport (self : HttpClient.t) (op : operation)
    (w : world) (e : AgentTalkError.t) :
  fst (run self op w) = Raise (SdkError e) ->
  HttpClient.handle (urlopen w (request_of self op) (HttpClient.timeout self)) =
  Raise (SdkError e).
Proof.
  assert (Hb : forall x, builtin_lookup_error x -> x <> SdkError e).
  { intros x [-> | [k ->]]; discriminate. }
  rewrite run_result.
  destruct (HttpClient.handle _) as [response | x]; cbn [bind];
    [ | intros [= ->]; reflexivity ].
  destruct op; unfold mapper_of.
  - destruct (Memo_of_response_cases response) as [(m & -> & _) | (x & -> & Hx)]; cbn [bind];
      [ discriminate | intros [= ->]; exfalso; exact (Hb _ Hx eq_refl) ].
  - destruct (Memo_of_response_cases response) as [(m & -> & _) | (x & -> & Hx)]; cbn [bind];
      [ discriminate | intros [= ->]; exfalso; exact (Hb _ Hx eq_refl) ].
  - destruct (Voices_of_response response) as [vs | x] eqn:E; cbn [bind];
      [ discriminate | intros [= ->]; exfalso;
                       exact (Hb _ (Voices_of_response_raises _ _ E) eq_refl) ].
  - destruct (Voices_of_response response) as [vs | x] eqn:E; cbn [bind];
      [ discriminate | intros [= ->]; exfalso;
                       exact (Hb _ (Voices_of_response_raises _ _ E) eq_refl) ].
  - destruct (HealthResponse_of_response_cases response) as [(h & -> & _) | (x & -> & Hx)];
      cbn [bind];
      [ discriminate | intros [= ->]; exfalso; exact (Hb _ Hx eq_refl) ].
Qed.

Lemma run_sdk_error_from_transport_witness :
  HttpClient.handle
    (urlopen (fresh (fun _ _ => TimeoutError))
       (request_of (HttpClient.init AgentTalkConfig.default) Health)
       (HttpClient.timeout (HttpClient.init AgentTalkConfig.default))) =
  Raise (SdkError (AgentTalkError (JStr "SERVICE_UNAVAILABLE") (JStr "Request timeout")
                     408 None)).
Proof.
  apply (run_sdk_error_from_transport (HttpClient.init AgentTalkConfig.default) Health
           (fresh (fun _ _ => TimeoutError))).
  reflexivity.
Defined.

(** ** The error mapper, beyond the taxonomy table *)

(** The details line of the mapper succeeds exactly on the wire details
    that build. *)
Lemma details_of_ok_iff (details_data : value) :
  (exists details, details_of details_data = Ok details) <-> details_build details_data.
Proof.
  unfold details_build, details_of.
  destruct (truthy details_data) eqn:Ht.
  - destruct details_data as [ | b | n | r | s | l | items ];
      try (split; [ intros [x H]; discriminate H
                  | intros [H | (items & H & _)]; discriminate H ]).
    destruct (Forall_dec (fun kv : string * value => In (fst kv) detail_fields)
                (fun kv => in_dec string_dec (fst kv) detail_fields) items) as [Hk | Hk].
    + destruct (from_kwargs_known items Hk ErrorDetails.empty) as [d ->].
      split; [ intros _; right; exists items; split; [ reflexivity | exact Hk ] | eauto ].
    + rewrite (from_kwargs_unknown items Hk).
      split; [ intros [x H]; discriminate H | ].
      intros [H | (items' & [= <-] & Hk')]; [ discriminate H | contradiction ].
  - split; [ intros _; left; reflexivity | eauto ].
Qed.

(** X9: on an envelope the mapper returns an error exactly when the code is
    hashable, the wire details are false or a dict of [ErrorDetails] keys,
    and, for the codes whose factory reads the details, the details are a
    dict; in every other case it raises. *)
Theorem create_error_returns_iff (status_code : Z) (code message details_data : value) :
  (exists e,
     create_error_from_response status_code (envelope code message details_data) = Ok e) <->
  hashable code = true /\
  details_build details_data /\
  (reads_details code = true -> is_dict details_data = true).
Proof.
  rewrite create_error_envelope. rewrite <- details_of_ok_iff.
  destruct (details_of details_data) as [details | x]; cbn [bind].
  2: { split; [ intros [e H]; discriminate H | intros (_ & [d H] & _); discriminate H ]. }
  destruct code as [ | b | n | r | c | l | d ]; cbn [hashable reads_details];
    try (split; [ intros _; repeat split; eauto; discriminate | eauto ]);
    try (split; [ intros [e H]; discriminate H | intros (H & _); discriminate H ]).
  unfold error_map. cbn [factory_of existsb].
  repeat match goal with
  | |- context [String.eqb c ?s] =>
      destruct (String.eqb_spec c s) as [-> | _];
      [ cbn [orb];
        destruct details_data; cbn [py_get bind is_dict];
        (split; [ intros [e H]; repeat split; eauto; discriminate H
                | intros (_ & _ & H);
                  try (eexists; reflexivity);
                  try (specialize (H eq_refl); discriminate H) ]) | ]
  end.
  cbn [orb]. split; [ intros _; repeat split; eauto; discriminate | eauto ].
Qed.

(** Whatever a factory of the map returns is an instance of the class filed
    under its key in [class_names]. *)
Lemma factory_class (c : string) (message : value) (details : option ErrorDetails.t)
    (details_data : value) (factory : unit -> result AgentTalkError.t) (e : AgentTalkError.t) :
  factory_of c (error_map message details details_data) = Some factory ->
  factory tt = Ok e ->
  In (c, AgentTalkError.name e) class_names.
Proof.
  unfold error_map. simpl.
  repeat match goal with
  | |- context [String.eqb c ?s] =>
      destruct (String.eqb_spec c s) as [-> | _];
      [ intros [= <-]; destruct details_data; simpl; intros [= <-]; tauto | ]
  end.
  discriminate.
Qed.

(** The class names of the taxonomy are pairwise distinct, and none is the
    name of the base class. *)
Lemma class_names_distinct :
  NoDup (map snd class_names) /\ ~ In "AgentTalkError" (map snd class_names).
Proof.
  split.
  - unfold class_names. cbn [map snd].
    repeat (apply NoDup_cons; [ cbn [In]; intuition discriminate | ]).
    apply NoDup_nil.
  - cbn. intuition discriminate.
Qed.

(** X10: an error the mapper returns is an instance of the class of its
    code, with the code of the envelope and the status the taxonomy declares,
    or, for a code outside the taxonomy, an instance of the base class with
    the code of the envelope and the status of the call.  The class names are
    pairwise distinct, so the class tells the kind. *)
Theorem create_error_class_of_code (status_code : Z) (error_response : value)
    (e : AgentTalkError.t) :
  create_error_from_response status_code error_response = Ok e ->
  wire_code error_response = Ok (AgentTalkError.code e) /\
  ((exists c, AgentTalkError.code e = JStr c /\
              In (c, AgentTalkError.name e) class_names /\ consistent e) \/
   (AgentTalkError.name e = "AgentTalkError" /\
    taxonomy_status (AgentTalkError.code e) = None /\
    AgentTalkError.status_code e = status_code)) /\
  NoDup (map snd class_names) /\ ~ In "AgentTalkError" (map snd class_names).
Proof.
  intros H. split; [ | split; [ | exact class_names_distinct ] ];
    revert H; unfold create_error_from_response, wire_code;
    (destruct (py_get error_response "error" (JDict [])) as [error_data | x];
       cbn [bind]; [ | discriminate ]);
    (destruct (py_get error_data "code" (JStr "INTERNAL_ERROR")) as [code | x];
       cbn [bind]; [ | discriminate ]);
    (destruct (py_get error_data "message" (JStr "Unknown error")) as [message | x];
       cbn [bind]; [ | discriminate ]);
    (destruct (py_get error_data "details" (JDict [])) as [details_data | x];
       cbn [bind]; [ | discriminate ]);
    (destruct (details_of details_data) as [details | x]; cbn [bind]; [ | discriminate ]);
    (destruct code as [ | b | n | r | c | l | d ]; cbn [hashable]; try discriminate).
  1-4: intros [= <-]; reflexivity.
  2-5: intros [= <-]; right; repeat split; reflexivity.
  - destruct (factory_of c (error_map message details details_data)) as [factory |] eqn:Hf.
    + intros He. f_equal. symmetry. exact (proj1 (factory_consistent _ _ _ _ _ _ Hf He)).
    + intros [= <-]. reflexivity.
  - destruct (factory_of c (error_map message details details_data)) as [factory |] eqn:Hf.
    + intros He. left. exists c.
      destruct (factory_consistent _ _ _ _ _ _ Hf He) as [Hc Hs].
      split; [ exact Hc | ]. split; [ exact (factory_class _ _ _ _ _ _ Hf He) | exact Hs ].
    + intros [= <-]. right. split; [ reflexivity | ]. split; [ | reflexivity ].
      apply taxonomy_status_none. intros Hin.
      apply (factory_iff_taxonomy c message details details_data) in Hin.
      destruct Hin as [factory Hin]. congruence.
Qed.

Lemma create_error_class_of_code_witness :
  wire_code (envelope (JStr "TTS_SERVICE_ERROR") (JStr "voice engine down") JNull) =
    Ok (AgentTalkError.code (TTSServiceError (JStr "voice engine down"))) /\
  ((exists c, AgentTalkError.code (TTSServiceError (JStr "voice engine down")) = JStr c /\
              In (c, AgentTalkError.name (TTSServiceError (JStr "voice engine down")))
                class_names /\
              consistent (TTSServiceError (JStr "voice engine down"))) \/
   (AgentTalkError.name (TTSServiceError (JStr "voice engine down")) = "AgentTalkError" /\
    taxonomy_status (AgentTalkError.code (TTSServiceError (JStr "voice engine down"))) = None /\
    AgentTalkError.status_code (TTSServiceError (JStr "voice engine down")) = 502)) /\
  NoDup (map snd class_names) /\ ~ In "AgentTalkError" (map snd class_names).
Proof.
  apply (create_error_class_of_code 502
           (envelope (JStr "TTS_SERVICE_ERROR") (JStr "voice engine down") JNull)).
  reflexivity.
Defined.

(** X11: what becomes of the server's message.  For the seven codes of
    [verbatim_codes] the error returned carries the message of the envelope
    unchanged; for the eight codes of [fixed_messages] it carries the text of
    the class, whatever the server wrote. *)
Theorem create_error_message (status_code : Z) (c : string) (message details_data : value)
    (e : AgentTalkError.t) :
  create_error_from_response status_code (envelope (JStr c) message details_data) = Ok e ->
  (In c verbatim_codes -> AgentTalkError.message e = message) /\
  (forall text, In (c, text) fixed_messages -> AgentTalkError.message e = JStr text).
Proof.
  rewrite create_error_envelope.
  destruct (details_of details_data) as [details | x]; cbn [bind hashable];
    [ | discriminate ].
  unfold error_map. cbn [factory_of].
  repeat match goal with
  | |- context [String.eqb c ?s] =>
      destruct (String.eqb_spec c s) as [-> | ?];
      [ destruct details_data; cbn [py_get bind]; intros [= <-];
        (split; [ intros H | intros text H ]); cbn in H;
        repeat (destruct H as [H | H]; [ try discriminate H; try (injection H as <-) | ]);
        try contradiction; reflexivity | ]
  end.
  intros [= <-]. split; [ reflexivity | ].
  intros text H. cbn in H.
  repeat (destruct H as [H | H]; [ injection H as <- _; congruence | ]).
  contradiction.
Qed.

Lemma create_error_message_witness :
  (In "EXPIRED_TOKEN" verbatim_codes ->
   AgentTalkError.message ExpiredTokenError = JStr "jwt expired at 12:00") /\
  (forall text, In ("EXPIRED_TOKEN", text) fixed_messages ->
                AgentTalkError.message ExpiredTokenError = JStr text).
Proof.
  apply (create_error_message 401 "EXPIRED_TOKEN" (JStr "jwt expired at 12:00") JNull).
  reflexivity.
Defined.

(** X12: an error answer that decodes to an object without [error] is
    reported as INTERNAL_ERROR with the message [Unknown error] and the
    status 500: the HTTP status of the answer is not kept. *)
Theorem error_answer_without_envelope (code : Z) (reason : string)
    (items : list (string * value)) :
  lookup "error" items = None ->
  create_error_from_response code (JDict items) = Ok (InternalError (JStr "Unknown error")) /\
  HttpClient.handle (HTTPError code reason (JsonText (JDict items))) =
    Raise (SdkError (InternalError (JStr "Unknown error"))) /\
  AgentTalkError.status_code (InternalError (JStr "Unknown error")) = 500.
Proof.
  intros H.
  assert (Hc : create_error_from_response code (JDict items) =
               Ok (InternalError (JStr "Unknown error"))).
  { unfold create_error_from_response. cbn [py_get]. unfold items_get. rewrite H.
    reflexivity. }
  split; [ exact Hc | ]. split; [ | reflexivity ].
  cbn [HttpClient.handle]. rewrite Hc. reflexivity.
Qed.

Lemma error_answer_without_envelope_witness :
  create_error_from_response 404 (JDict [("detail", JStr "Not Found")]) =
    Ok (InternalError (JStr "Unknown error")) /\
  HttpClient.handle (HTTPError 404 "Not Found" (JsonText (JDict [("detail", JStr "Not Found")]))) =
    Raise (SdkError (InternalError (JStr "Unknown error"))) /\
  AgentTalkError.status_code (InternalError (JStr "Unknown error")) = 500.
Proof.
  apply (error_answer_without_envelope 404 "Not Found" [("detail", JStr "Not Found")]).
  reflexivity.
Defined.

(** X13: an error answer that decodes to a value that is no object, or to
    an object whose [error] is no object (a bare message, say), makes the
    mapper raise [AttributeError], and the transport lets it through: the
    caller gets no SDK error. *)
Theorem error_answer_not_an_envelope (code : Z) (reason : string) (error_response : value) :
  not_an_envelope error_response ->
  create_error_from_response code error_response = Raise AttributeError /\
  HttpClient.handle (HTTPError code reason (JsonText error_response)) = Raise AttributeError.
Proof.
  intros H.
  assert (Hc : create_error_from_response code error_response = Raise AttributeError).
  { destruct H as [H | (items & error_data & -> & Hl & Hd)].
    - destruct error_response; try discriminate H; reflexivity.
    - unfold create_error_from_response. cbn [py_get]. unfold items_get. rewrite Hl.
      cbn [bind]. destruct error_data; try discriminate Hd; reflexivity. }
  split; [ exact Hc | ]. cbn [HttpClient.handle]. rewrite Hc. reflexivity.
Qed.

Lemma error_answer_not_an_envelope_witness :
  create_error_from_response 500 (JDict [("error", JStr "Internal Server Error")]) =
    Raise AttributeError /\
  HttpClient.handle
    (HTTPError 500 "Internal Server Error"
       (JsonText (JDict [("error", JStr "Internal Server Error")]))) = Raise AttributeError.
Proof.
  apply (error_answer_not_an_envelope 500 "Internal Server Error"
           (JDict [("error", JStr "Internal Server Error")])).
  right. exists [("error", JStr "Internal Server Error")], (JStr "Internal Server Error").
  split; [ reflexivity | split; reflexivity ].
Defined.

(** ** [ErrorDetails] and the wire details *)

(** Setting one field changes that field and no other. *)
Lemma get_set (k k' : string) (v : value) (d d' : ErrorDetails.t) :
  In k detail_fields ->
  ErrorDetails.set k' v d = Some d' ->
  ErrorDetails.get k d' = if String.eqb k k' then Some v else ErrorDetails.get k d.
Proof.
  intros Hk. destruct d. unfold ErrorDetails.set.
  repeat match goal with
  | |- context [String.eqb k' ?s] =>
      destruct (String.eqb_spec k' s) as [-> | _];
      [ intros [= <-]; each_code Hk; reflexivity | ]
  end.
  discriminate.
Qed.

(** Every field of a built [ErrorDetails] is the value the items bind to its
    name, or the value it had before when they bind none. *)
Lemma from_kwargs_get (items : list (string * value)) :
  NoDup (map fst items) ->
  forall (d0 d : ErrorDetails.t) (k : string),
    ErrorDetails.from_kwargs items d0 = Some d ->
    In k detail_fields ->
    ErrorDetails.get k d =
    match lookup k items with
    | Some v => Some v
    | None => ErrorDetails.get k d0
    end.
Proof.
  induction items as [| [k' v] rest IH]; intros Hnd d0 d k Hd Hk.
  - injection Hd as <-. reflexivity.
  - cbn [ErrorDetails.from_kwargs] in Hd.
    destruct (ErrorDetails.set k' v d0) as [d1 |] eqn:Hset; [ | discriminate ].
    inversion Hnd as [| ? ? Hnotin Hnd']; subst.
    rewrite (IH Hnd' d1 d k Hd Hk). rewrite (get_set k k' v d0 d1 Hk Hset).
    cbn [lookup]. destruct (String.eqb_spec k k') as [-> | Hne].
    + assert (Hnone : lookup k' rest = None).
      { clear - Hnotin. induction rest as [| [k2 v2] rest IH]; [ reflexivity | ].
        cbn [lookup]. destruct (String.eqb_spec k' k2) as [-> | _].
        - exfalso. apply Hnotin. left. reflexivity.
        - apply IH. intros H. apply Hnotin. right. exact H. }
      rewrite Hnone. reflexivity.
    + reflexivity.
Qed.

(** X14: the typed details mirror the wire details.  From a details object
    whose keys are distinct fields of [ErrorDetails] the dataclass is built,
    and each of its twelve fields holds the wire value of its name, or
    [None] when the wire details have no such key. *)
Theorem error_details_mirror_wire (items : list (string * value)) :
  NoDup (map fst items) ->
  known_keys items ->
  exists d,
    ErrorDetails.from_kwargs items ErrorDetails.empty = Some d /\
    forall k, In k detail_fields -> ErrorDetails.get k d = Some (items_get items k JNull).
Proof.
  intros Hnd Hk. destruct (from_kwargs_known items Hk ErrorDetails.empty) as [d Hd].
  exists d. split; [ exact Hd | ]. intros k Hin.
  rewrite (from_kwargs_get items Hnd _ _ k Hd Hin). unfold items_get.
  destruct (lookup k items); [ reflexivity | ].
  each_code Hin; reflexivity.
Qed.

Lemma error_details_mirror_wire_witness :
  exists d,
    ErrorDetails.from_kwargs [("limit", JInt 100); ("reset_at", JStr "2024-01-02")]
      ErrorDetails.empty = Some d /\
    forall k, In k detail_fields ->
      ErrorDetails.get k d =
      Some (items_get [("limit", JInt 100); ("reset_at", JStr "2024-01-02")] k JNull).
Proof.
  apply (error_details_mirror_wire [("limit", JInt 100); ("reset_at", JStr "2024-01-02")]).
  - cbn [map fst].
    apply NoDup_cons; [ cbn [In]; intuition discriminate | ].
    apply NoDup_cons; [ cbn [In]; intuition | apply NoDup_nil ].
  - apply Forall_cons; [ simpl; tauto | ].
    apply Forall_cons; [ simpl; tauto | apply Forall_nil ].
Defined.

(** X15: a code outside the taxonomy comes back unchanged.  For a hashable
    code that is no code of the taxonomy and wire details whose keys are
    distinct fields of [ErrorDetails], the mapper returns an instance of the
    base class with the code, the message and the status of the call, and
    details that mirror the wire details ([None] for empty ones). *)
Theorem create_error_unrecognized_preserved (status_code : Z) (code message : value)
    (items : list (string * value)) :
  hashable code = true ->
  taxonomy_status code = None ->
  NoDup (map fst items) ->
  known_keys items ->
  exists e,
    create_error_from_response status_code (envelope code message (JDict items)) = Ok e /\
    AgentTalkError.name e = "AgentTalkError" /\
    AgentTalkError.code e = code /\
    AgentTalkError.message e = message /\
    AgentTalkError.status_code e = status_code /\
    match AgentTalkError.details e with
    | None => items = []
    | Some d =>
        items <> [] /\
        forall k, In k detail_fields ->
          ErrorDetails.get k d = Some (items_get items k JNull)
    end.
Proof.
  intros Hh Hc Hnd Hk.
  destruct (unrecognized_known_details_ok status_code code message items Hh Hc Hk)
    as [details [Hd He]].
  exists (AgentTalkError code message status_code details).
  split; [ exact He | ]. repeat (split; [ reflexivity | ]). cbn.
  unfold details_of in Hd. destruct items as [| kv rest].
  - cbn in Hd. injection Hd as <-. reflexivity.
  - cbn [truthy] in Hd.
    destruct (ErrorDetails.from_kwargs (kv :: rest) ErrorDetails.empty) as [d |] eqn:Hf;
      [ | discriminate ].
    injection Hd as <-. split; [ discriminate | ].
    intros k Hin. rewrite (from_kwargs_get _ Hnd _ _ k Hf Hin). unfold items_get.
    destruct (lookup k (kv :: rest)); [ reflexivity | ].
    each_code Hin; reflexivity.
Qed.

Lemma create_error_unrecognized_preserved_witness :
  exists e,
    create_error_from_response 418
      (envelope (JStr "TEAPOT") (JStr "short and stout") (JDict [("reason", JStr "tea")])) =
      Ok e /\
    AgentTalkError.name e = "AgentTalkError" /\
    AgentTalkError.code e = JStr "TEAPOT" /\
    AgentTalkError.message e = JStr "short and stout" /\
    AgentTalkError.status_code e = 418 /\
    match AgentTalkError.details e with
    | None => [("reason", JStr "tea")] = []
    | Some d =>
        [("reason", JStr "tea")] <> [] /\
        forall k, In k detail_fields ->
          ErrorDetails.get k d = Some (items_get [("reason", JStr "tea")] k JNull)
    end.
Proof.
  apply (create_error_unrecognized_preserved 418 (JStr "TEAPOT") (JStr "short and stout")
           [("reason", JStr "tea")]).
  - reflexivity.
  - reflexivity.
  - cbn [map fst]. apply NoDup_cons; [ cbn [In]; intuition | apply NoDup_nil ].
  - apply Forall_cons; [ simpl; tauto | apply Forall_nil ].
Defined.

(** ** The client's configuration *)

(** X16: the timeout handed to the network is in whole seconds: a timeout
    of [ms] milliseconds, not zero, becomes the floor of [ms / 1000], so a
    timeout under one second becomes zero; no timeout, or zero, becomes the
    default of 30 seconds. *)
Theorem client_timeout_in_seconds (api_key base_url : option string) (ms : Z) :
  ms <> 0 ->
  let seconds :=
    HttpClient.timeout (AgentTalk._client (AgentTalk.init api_key base_url (Some ms))) in
  1000 * seconds <= ms < 1000 * seconds + 1000 /\
  (seconds = 0 <-> 0 < ms < 1000) /\
  HttpClient.timeout (AgentTalk._client (AgentTalk.init api_key base_url None)) = 30 /\
  HttpClient.timeout (AgentTalk._client (AgentTalk.init api_key base_url (Some 0))) = 30.
Proof.
  intros Hms seconds.
  assert (Hs : seconds = ms / 1000).
  { subst seconds. unfold AgentTalk.init, HttpClient.init.
    cbn [AgentTalk._client HttpClient.timeout AgentTalkConfig.timeout].
    destruct (Z.eqb_spec ms 0) as [-> | _]; [ contradiction | ].
    destruct (Z.eqb_spec ms 0) as [-> | _]; [ contradiction | reflexivity ]. }
  pose proof (Z.div_mod ms 1000 ltac:(lia)) as Hdm.
  pose proof (Z.mod_pos_bound ms 1000 ltac:(lia)) as Hb.
  rewrite Hs. split; [ lia | ]. split; [ lia | ]. split; reflexivity.
Qed.

Lemma client_timeout_in_seconds_witness :
  let seconds :=
    HttpClient.timeout (AgentTalk._client (AgentTalk.init None None (Some 500))) in
  1000 * seconds <= 500 < 1000 * seconds + 1000 /\
  (seconds = 0 <-> 0 < 500 < 1000) /\
  HttpClient.timeout (AgentTalk._client (AgentTalk.init None None None)) = 30 /\
  HttpClient.timeout (AgentTalk._client (AgentTalk.init None None (Some 0))) = 30.
Proof.
  apply (client_timeout_in_seconds None None 500). lia.
Defined.

(** X17: the base URL of a client is never empty: a base URL that is absent
    or the empty str is replaced by the default, any other is kept, and every
    request of the client goes to an URL that starts with it. *)
Theorem client_base_url (api_key base_url : option string) (timeout : option Z)
    (op : operation) :
  let facade := AgentTalk.init api_key base_url timeout in
  AgentTalk.get_base_url facade <> "" /\
  AgentTalk.get_base_url facade =
    match base_url with
    | Some url => if String.eqb url "" then "https://talk.onhyper.io" else url
    | None => "https://talk.onhyper.io"
    end /\
  String.prefix (AgentTalk.get_base_url facade)
    (Request.url (request_of (AgentTalk._client facade) op)) = true.
Proof.
  assert (Hp : forall a b, String.prefix a (a ++ b) = true).
  { induction a as [| c a IH]; intros b; cbn.
    - destruct b; reflexivity.
    - destruct (ascii_dec c c) as [_ | Hne]; [ apply IH | contradiction ]. }
  assert (Hne : forall url, str_or (Some (str_or url DEFAULT_BASE_URL)) DEFAULT_BASE_URL =
                            str_or url DEFAULT_BASE_URL /\
                            str_or url DEFAULT_BASE_URL <> "").
  { intros [url |]; cbn; [ | split; [ reflexivity | discriminate ] ].
    destruct (String.eqb_spec url "") as [-> | Hu]; cbn;
      [ split; [ reflexivity | discriminate ] | ].
    destruct (String.eqb_spec url "") as [-> | _]; [ contradiction | ].
    split; [ reflexivity | exact Hu ]. }
  destruct (Hne base_url) as [He Hn]. intros facade.
  assert (Hb : AgentTalk.get_base_url facade = str_or base_url DEFAULT_BASE_URL).
  { subst facade.
    unfold AgentTalk.get_base_url, HttpClient.get_base_url, AgentTalk.init, HttpClient.init.
    cbn [AgentTalk._client HttpClient.base_url AgentTalkConfig.base_url]. exact He. }
  rewrite Hb. split; [ exact Hn | ]. split.
  - destruct base_url as [url |]; reflexivity.
  - rewrite <- Hb. unfold AgentTalk.get_base_url, HttpClient.get_base_url.
    destruct op; unfold request_of, HttpClient.build_request; cbn [Request.url]; apply Hp.
Qed.

(** ** orchestrator.py: dependencies and the choice of tasks *)

Lemma mem_In (x : string) (l : list string) : mem x l = true <-> In x l.
Proof.
  unfold mem. rewrite existsb_exists. split.
  - intros [y [Hy He]]. apply String.eqb_eq in He. subst y. exact Hy.
  - intros H. exists x. split; [ exact H | apply String.eqb_refl ].
Qed.

(** The loop answers [True] exactly when every dependency that is not the
    empty str is completed. *)
Lemma all_deps_met_iff (items completed_tasks : list string) :
  all_deps_met items completed_tasks = true <->
  forall dep, In dep items -> dep <> "" -> In dep completed_tasks.
Proof.
  induction items as [| dep rest IH]; cbn [all_deps_met].
  - split; [ intros _ d [] | reflexivity ].
  - destruct (String.eqb_spec dep "") as [-> | Hne]; cbn [negb andb].
    + rewrite IH. split.
      * intros H d [<- | Hin] Hd; [ contradiction | exact (H d Hin Hd) ].
      * intros H d Hin. apply H. right. exact Hin.
    + destruct (mem dep completed_tasks) eqn:Hm; cbn [negb].
      * rewrite IH. apply mem_In in Hm. split.
        -- intros H d [<- | Hin] Hd; [ exact Hm | exact (H d Hin Hd) ].
        -- intros H d Hin. apply H. right. exact Hin.
      * split; [ discriminate | ].
        intros H. assert (Hin : In dep completed_tasks) by (apply H; [ left; reflexivity | exact Hne ]).
        apply mem_In in Hin. congruence.
Qed.

(** X18: for a task whose dependencies are a list, [check_dependencies_met]
    answers, and it answers [True] exactly when every dependency other than
    the empty str is among the completed tasks. *)
Theorem dependencies_met_iff (task : Task.t) (completed_tasks items : list string) :
  Task.depends_on task = DepList items ->
  exists met,
    check_dependencies_met task completed_tasks = Ok met /\
    (met = true <-> forall dep, In dep items -> dep <> "" -> In dep completed_tasks).
Proof.
  intros H. unfold check_dependencies_met. rewrite H.
  destruct items as [| dep rest].
  - exists true. split; [ reflexivity | ]. split; [ intros _ d [] | reflexivity ].
  - eexists. split; [ reflexivity | apply all_deps_met_iff ].
Qed.

Lemma dependencies_met_iff_witness :
  exists met,
    check_dependencies_met
      (Task.mk "task-003-voices.md" (FStr "task-003") (FStr "high") "todo"
         (DepList ["task-001"; ""; "task-002"]) "Voices" (FStr "agent-talk") "")
      ["task-001"] = Ok met /\
    (met = true <->
     forall dep, In dep ["task-001"; ""; "task-002"] -> dep <> "" -> In dep ["task-001"]).
Proof.
  apply (dependencies_met_iff
           (Task.mk "task-003-voices.md" (FStr "task-003") (FStr "high") "todo"
              (DepList ["task-001"; ""; "task-002"]) "Voices" (FStr "agent-talk") "")
           ["task-001"]).
  reflexivity.
Defined.

(** X19: completing more tasks never blocks a task: dependencies that are
    met by a set of completed tasks are met by every larger set. *)
Theorem dependencies_met_monotone (task : Task.t) (completed_tasks more : list string) :
  incl completed_tasks more ->
  check_dependencies_met task completed_tasks = Ok true ->
  check_dependencies_met task more = Ok true.
Proof.
  intros Hincl. unfold check_dependencies_met.
  destruct (Task.depends_on task) as [[| dep rest] | [|]]; try (intros H; exact H).
  intros [= H]. f_equal. apply all_deps_met_iff.
  intros d Hin Hd. apply Hincl. revert d Hin Hd. apply all_deps_met_iff. exact H.
Qed.

Lemma dependencies_met_monotone_witness :
  check_dependencies_met
    (Task.mk "task-002-sdk.md" (FStr "task-002") (FStr "medium") "todo"
       (DepList ["task-001"]) "SDK" (FStr "agent-talk") "")
    ["task-000"; "task-001"] = Ok true.
Proof.
  apply (dependencies_met_monotone
           (Task.mk "task-002-sdk.md" (FStr "task-002") (FStr "medium") "todo"
              (DepList ["task-001"]) "SDK" (FStr "agent-talk") "")
           ["task-001"] ["task-000"; "task-001"]).
  - intros x [<- | []]. simpl. tauto.
  - reflexivity.
Defined.

(** A comprehension with a condition keeps the items on which the condition
    is [True], and the condition raised on none. *)
Lemma filter_result_ok {A : Type} (f : A -> result bool) (l kept : list A) :
  filter_result f l = Ok kept ->
  (forall x, In x l -> exists b, f x = Ok b) /\
  (forall x, In x kept <-> In x l /\ f x = Ok true).
Proof.
  revert kept. induction l as [| y rest IH]; intros kept; cbn [filter_result].
  - intros [= <-]. split; [ intros x [] | intros x; split; [ intros [] | intros [[] _] ] ].
  - destruct (f y) as [keep | e] eqn:Hy; cbn [bind]; [ | discriminate ].
    destruct (filter_result f rest) as [kept' | e]; cbn [bind]; [ | discriminate ].
    destruct (IH kept' eq_refl) as [IH1 IH2]. intros [= <-]. split.
    + intros x [<- | Hin]; [ eauto | exact (IH1 x Hin) ].
    + intros x. destruct keep.
      * split.
        -- intros [<- | Hin]; [ split; [ left; reflexivity | exact Hy ] | ].
           apply IH2 in Hin. split; [ right; tauto | tauto ].
        -- intros [[<- | Hin] Hx]; [ left; reflexivity | right; apply IH2; tauto ].
      * rewrite IH2. split.
        -- intros [Hin Hx]. split; [ right; exact Hin | exact Hx ].
        -- intros [[<- | Hin] Hx]; [ congruence | tauto ].
Qed.

(** ... and it returns when the condition raises on no item. *)
Lemma filter_result_total {A : Type} (f : A -> result bool) (l : list A) :
  (forall x, In x l -> exists b, f x = Ok b) -> exists kept, filter_result f l = Ok kept.
Proof.
  induction l as [| y rest IH]; intros H; cbn [filter_result]; [ eauto | ].
  destruct (H y (or_introl eq_refl)) as [b ->]. cbn [bind].
  destruct IH as [kept ->]; [ intros x Hx; apply H; right; exact Hx | ].
  cbn [bind]. eauto.
Qed.

(** The keys computed for the sort are the ranks of the tasks, in order. *)
Lemma keyed_ok (tasks : list Task.t) (keyed : list (nat * Task.t)) :
  comprehension (fun t => k <- priority_rank t ;; Ok (k, t)) tasks = Ok keyed ->
  map snd keyed = tasks /\
  Forall (fun kt => priority_rank (snd kt) = Ok (fst kt)) keyed.
Proof.
  revert keyed. induction tasks as [| t rest IH]; intros keyed; cbn [comprehension].
  - intros [= <-]. split; [ reflexivity | constructor ].
  - destruct (priority_rank t) as [k | e] eqn:Hk; cbn [bind]; [ | discriminate ].
    destruct (comprehension _ rest) as [keyed' | e]; cbn [bind]; [ | discriminate ].
    destruct (IH keyed' eq_refl) as [IH1 IH2]. intros [= <-]. split.
    + cbn. f_equal. exact IH1.
    + constructor; [ exact Hk | exact IH2 ].
Qed.

Lemma insert_by_key_perm {A : Type} (x : nat * A) (l : list (nat * A)) :
  Permutation (insert_by_key x l) (x :: l).
Proof.
  induction l as [| y rest IH]; cbn [insert_by_key]; [ reflexivity | ].
  destruct (fst x <=? fst y)%nat; [ reflexivity | ].
  rewrite IH. apply perm_swap.
Qed.

Lemma sort_by_key_perm {A : Type} (l : list (nat * A)) : Permutation (sort_by_key l) l.
Proof.
  induction l as [| x rest IH]; cbn; [ reflexivity | ].
  rewrite insert_by_key_perm. apply perm_skip. exact IH.
Qed.

Lemma insert_by_key_sorted {A : Type} (x : nat * A) (l : list (nat * A)) :
  StronglySorted key_le l -> StronglySorted key_le (insert_by_key x l).
Proof.
  induction 1 as [| y rest Hs IH Hall]; cbn [insert_by_key].
  - constructor; constructor.
  - destruct (Nat.leb_spec (fst x) (fst y)) as [Hle | Hgt].
    + constructor; [ constructor; assumption | ].
      constructor; [ exact Hle | ].
      rewrite Forall_forall in *. intros z Hz. unfold key_le in *.
      specialize (Hall z Hz). lia.
    + constructor; [ exact IH | ].
      rewrite Forall_forall in *. intros z Hz.
      apply (Permutation_in _ (insert_by_key_perm x rest)) in Hz.
      destruct Hz as [<- | Hz]; [ unfold key_le; lia | exact (Hall z Hz) ].
Qed.

Lemma sort_by_key_sorted {A : Type} (l : list (nat * A)) :
  StronglySorted key_le (sort_by_key l).
Proof.
  induction l as [| x rest IH]; cbn; [ constructor | ].
  apply insert_by_key_sorted. exact IH.
Qed.

(** In a sorted list the first [n] items come before all the others. *)
Lemma sorted_firstn_skipn {A : Type} (n : nat) (l : list (nat * A)) :
  StronglySorted key_le l ->
  StronglySorted key_le (firstn n l) /\
  forall a b, In a (firstn n l) -> In b (skipn n l) -> key_le a b.
Proof.
  intros H. revert n. induction H as [| y rest Hs IH Hall]; intros n.
  - rewrite firstn_nil. split; [ constructor | intros a b [] ].
  - destruct n as [| n]; cbn [firstn skipn].
    + split; [ constructor | intros a b [] ].
    + destruct (IH n) as [IH1 IH2]. rewrite Forall_forall in Hall. split.
      * constructor; [ exact IH1 | ].
        rewrite Forall_forall. intros z Hz. apply Hall.
        rewrite <- (firstn_skipn n rest). apply in_or_app. left. exact Hz.
      * intros a b [<- | Ha] Hb.
        -- apply Hall. rewrite <- (firstn_skipn n rest). apply in_or_app. right. exact Hb.
        -- exact (IH2 a b Ha Hb).
Qed.

(** The stages of the choice, when it returns. *)
Lemma tasks_to_spawn_stages (all_tasks : list Task.t) (completed_tasks : list string)
    (chosen : list Task.t) :
  tasks_to_spawn all_tasks completed_tasks = Ok chosen ->
  exists agent_talk_tasks ready_tasks keyed,
    filter_result is_agent_talk all_tasks = Ok agent_talk_tasks /\
    filter_result (is_ready completed_tasks) agent_talk_tasks = Ok ready_tasks /\
    comprehension (fun t => k <- priority_rank t ;; Ok (k, t)) ready_tasks = Ok keyed /\
    chosen = map snd (firstn MAX_PARALLEL (sort_by_key keyed)).
Proof.
  unfold tasks_to_spawn, keyed_tasks_to_spawn.
  destruct (filter_result is_agent_talk all_tasks) as [ag | e]; cbn [bind]; [ | discriminate ].
  destruct (filter_result (is_ready completed_tasks) ag) as [rd | e] eqn:E2; cbn [bind];
    [ | discriminate ].
  destruct (comprehension _ rd) as [keyed | e] eqn:E3; cbn [bind]; [ | discriminate ].
  intros [= <-]. exists ag, rd, keyed.
  split; [ reflexivity | ]. split; [ exact E2 | ]. split; [ exact E3 | reflexivity ].
Qed.

(** A task is among the ready tasks of a run exactly when it is a task of
    the folders that is ready. *)
Lemma ready_tasks_iff (all_tasks : list Task.t) (completed_tasks : list string)
    (agent_talk_tasks ready_tasks : list Task.t) (t : Task.t) :
  filter_result is_agent_talk all_tasks = Ok agent_talk_tasks ->
  filter_result (is_ready completed_tasks) agent_talk_tasks = Ok ready_tasks ->
  In t ready_tasks <-> In t all_tasks /\ ready completed_tasks t.
Proof.
  intros H1 H2.
  destruct (filter_result_ok _ _ _ H1) as [_ A].
  destruct (filter_result_ok _ _ _ H2) as [_ R].
  rewrite R, A. unfold ready, is_ready.
  destruct (String.eqb_spec (Task.status t) "todo") as [Hs | Hs].
  - tauto.
  - split; [ intros [_ H]; discriminate H | tauto ].
Qed.

(** Tasks sorted by their keys are sorted by their ranks, when the keys are
    the ranks. *)
Lemma sorted_keys_sorted_ranks (l : list (nat * Task.t)) :
  StronglySorted key_le l ->
  Forall (fun kt => priority_rank (snd kt) = Ok (fst kt)) l ->
  StronglySorted rank_le (map snd l).
Proof.
  induction 1 as [| kt rest Hs IH Hall]; intros Hk; cbn [map]; [ constructor | ].
  inversion Hk as [| ? ? Hkt Hrest]; subst.
  constructor; [ exact (IH Hrest) | ].
  rewrite Forall_forall in *. intros t Ht.
  apply in_map_iff in Ht. destruct Ht as [kt' [<- Hin]].
  exists (fst kt), (fst kt'). split; [ exact Hkt | ]. split; [ exact (Hrest kt' Hin) | ].
  exact (Hall kt' Hin).
Qed.

(** X20: the tasks chosen in a run are at most [MAX_PARALLEL], five, and
    each of them is a task of the folders that is of the project, still to
    do, and has its dependencies met. *)
Theorem tasks_to_spawn_sound (all_tasks : list Task.t) (completed_tasks : list string)
    (chosen : list Task.t) :
  tasks_to_spawn all_tasks completed_tasks = Ok chosen ->
  (List.length chosen <= 5)%nat /\
  forall t, In t chosen -> In t all_tasks /\ ready completed_tasks t.
Proof.
  intros H. destruct (tasks_to_spawn_stages _ _ _ H) as (ag & rd & keyed & H1 & H2 & H3 & ->).
  split.
  - rewrite length_map. apply firstn_le_length.
  - intros t Ht. apply (ready_tasks_iff _ _ _ _ t H1 H2).
    destruct (keyed_ok _ _ H3) as [<- _].
    apply in_map_iff in Ht. destruct Ht as [kt [<- Hkt]].
    apply in_map. apply (Permutation_in _ (sort_by_key_perm keyed)).
    rewrite <- (firstn_skipn MAX_PARALLEL (sort_by_key keyed)).
    apply in_or_app. left. exact Hkt.
Qed.

(** X21: the chosen tasks are in the order of their priority: each comes
    before the tasks of the same or a lower priority only (high, then medium
    and the priorities that are neither high nor low, then low). *)
Theorem tasks_to_spawn_by_priority (all_tasks : list Task.t) (completed_tasks : list string)
    (chosen : list Task.t) :
  tasks_to_spawn all_tasks completed_tasks = Ok chosen ->
  StronglySorted rank_le chosen.
Proof.
  intros H. destruct (tasks_to_spawn_stages _ _ _ H) as (ag & rd & keyed & H1 & H2 & H3 & ->).
  destruct (keyed_ok _ _ H3) as [_ Hk].
  assert (Hk' : Forall (fun kt => priority_rank (snd kt) = Ok (fst kt))
                  (firstn MAX_PARALLEL (sort_by_key keyed))).
  { rewrite Forall_forall in *. intros kt Hin. apply Hk.
    apply (Permutation_in _ (sort_by_key_perm keyed)).
    rewrite <- (firstn_skipn MAX_PARALLEL (sort_by_key keyed)).
    apply in_or_app. left. exact Hin. }
  destruct (sorted_firstn_skipn MAX_PARALLEL _ (sort_by_key_sorted keyed)) as [Hs _].
  exact (sorted_keys_sorted_ranks _ Hs Hk').
Qed.

(** X22: a ready task is left out of a run only when five tasks are chosen,
    none of them of a lower priority than it. *)
Theorem tasks_to_spawn_leaves_out (all_tasks : list Task.t) (completed_tasks : list string)
    (chosen : list Task.t) (t : Task.t) :
  tasks_to_spawn all_tasks completed_tasks = Ok chosen ->
  In t all_tasks ->
  ready completed_tasks t ->
  In t chosen \/
  (List.length chosen = 5%nat /\ forall other, In other chosen -> rank_le other t).
Proof.
  intros H Hin Hr.
  destruct (tasks_to_spawn_stages _ _ _ H) as (ag & rd & keyed & H1 & H2 & H3 & ->).
  destruct (keyed_ok _ _ H3) as [Hm Hk].
  assert (Hrd : In t rd) by (apply (ready_tasks_iff _ _ _ _ t H1 H2); tauto).
  rewrite <- Hm in Hrd. apply in_map_iff in Hrd. destruct Hrd as [kt [<- Hkt]].
  apply (Permutation_in _ (Permutation_sym (sort_by_key_perm keyed))) in Hkt.
  pose proof (sort_by_key_sorted keyed) as Hs.
  assert (Hk' : forall x, In x (sort_by_key keyed) -> priority_rank (snd x) = Ok (fst x)).
  { rewrite Forall_forall in Hk. intros x Hx. apply Hk.
    exact (Permutation_in _ (sort_by_key_perm keyed) Hx). }
  set (sorted := sort_by_key keyed) in *.
  rewrite <- (firstn_skipn MAX_PARALLEL sorted) in Hkt.
  apply in_app_or in Hkt. destruct Hkt as [Hf | Hsk].
  - left. apply in_map. exact Hf.
  - right. split.
    + rewrite length_map. apply firstn_length_le.
      destruct (Nat.le_gt_cases MAX_PARALLEL (List.length sorted)) as [Hle | Hgt];
        [ exact Hle | ].
      rewrite skipn_all2 in Hsk by lia. contradiction.
    + intros other Ho. apply in_map_iff in Ho. destruct Ho as [ko [<- Hko]].
      destruct (sorted_firstn_skipn MAX_PARALLEL sorted Hs) as [_ Hlt].
      exists (fst ko), (fst kt).
      split; [ apply Hk'; rewrite <- (firstn_skipn MAX_PARALLEL sorted);
               apply in_or_app; left; exact Hko | ].
      split; [ apply Hk'; rewrite <- (firstn_skipn MAX_PARALLEL sorted);
               apply in_or_app; right; exact Hsk | ].
      exact (Hlt ko kt Hko Hsk).
Qed.

Lemma tasks_to_spawn_sound_witness :
  (List.length example_chosen <= 5)%nat /\
  forall t, In t example_chosen -> In t example_tasks /\ ready ["task-000"] t.
Proof.
  apply (tasks_to_spawn_sound example_tasks ["task-000"] example_chosen).
  reflexivity.
Defined.

Lemma tasks_to_spawn_by_priority_witness : StronglySorted rank_le example_chosen.
Proof.
  apply (tasks_to_spawn_by_priority example_tasks ["task-000"] example_chosen).
  reflexivity.
Defined.

(** Six ready tasks: [task-014], of low priority, is not chosen, five tasks
    are, and none of them has a lower priority than it. *)
Lemma tasks_to_spawn_leaves_out_witness :
  tasks_to_spawn six_ready_tasks [] = Ok five_chosen /\
  ~ In (todo_task "task-014" "low") five_chosen /\
  (In (todo_task "task-014" "low") five_chosen \/
   (List.length five_chosen = 5%nat /\
    forall other, In other five_chosen -> rank_le other (todo_task "task-014" "low"))).
Proof.
  split; [ reflexivity | ]. split.
  - cbn. intros H.
    repeat (destruct H as [H | H]; [ discriminate H | ]). exact H.
  - apply (tasks_to_spawn_leaves_out six_ready_tasks [] five_chosen).
    + reflexivity.
    + cbn. tauto.
    + split; [ reflexivity | split; reflexivity ].
Defined.

Lemma comprehension_total {A B : Type} (f : A -> result B) (l : list A) :
  (forall x, In x l -> exists y, f x = Ok y) -> exists ys, comprehension f l = Ok ys.
Proof.
  induction l as [| x rest IH]; intros H; cbn [comprehension]; [ eauto | ].
  destruct (H x (or_introl eq_refl)) as [y ->]. cbn [bind].
  destruct IH as [ys ->]; [ intros z Hz; apply H; right; exact Hz | ].
  cbn [bind]. eauto.
Qed.

(** X23: when every task has a str for id, a str for priority and a list
    for dependencies, the choice of the tasks to spawn raises nothing. *)
Theorem tasks_to_spawn_total (all_tasks : list Task.t) (completed_tasks : list string) :
  Forall plain_task all_tasks ->
  exists chosen, tasks_to_spawn all_tasks completed_tasks = Ok chosen.
Proof.
  intros Hp. rewrite Forall_forall in Hp.
  unfold tasks_to_spawn, keyed_tasks_to_spawn.
  destruct (filter_result_total is_agent_talk all_tasks) as [ag Hag].
  { intros t Ht. destruct (Hp t Ht) as [[s Hs] _]. unfold is_agent_talk. rewrite Hs.
    destruct (Task.project t) as [p | b | l]; eauto.
    destruct (string_dec p "agent-talk") as [-> | Hne]; [ eauto | ].
    assert (exists b, match p with
                      | "agent-talk" => Ok true
                      | _ => Ok (is_substring "agent-talk" s)
                      end = Ok b) as [b Hb].
    { clear. repeat (destruct p as [| [[|] [|] [|] [|] [|] [|] [|] [|]] p]; eauto). }
    eauto. }
  rewrite Hag. cbn [bind].
  destruct (filter_result_ok _ _ _ Hag) as [_ Hin].
  destruct (filter_result_total (is_ready completed_tasks) ag) as [rd Hrd].
  { intros t Ht. apply Hin in Ht. destruct Ht as [Ht _].
    destruct (Hp t Ht) as (_ & _ & [l Hl]). unfold is_ready, check_dependencies_met.
    rewrite Hl. destruct (String.eqb (Task.status t) "todo"); [ | eauto ].
    destruct l; eauto. }
  rewrite Hrd. cbn [bind].
  destruct (filter_result_ok _ _ _ Hrd) as [_ Hin'].
  destruct (comprehension_total (fun t => k <- priority_rank t ;; Ok (k, t)) rd) as [keyed Hk].
  { intros t Ht. apply Hin' in Ht. destruct Ht as [Ht _]. apply Hin in Ht.
    destruct Ht as [Ht _]. destruct (Hp t Ht) as (_ & [s Hs] & _).
    unfold priority_rank. rewrite Hs. cbn [bind]. eauto. }
  rewrite Hk. cbn [bind]. eauto.
Qed.

Lemma tasks_to_spawn_total_witness :
  exists chosen, tasks_to_spawn example_tasks [] = Ok chosen.
Proof.
  apply (tasks_to_spawn_total example_tasks []).
  repeat (apply Forall_cons;
          [ split; [ eexists; reflexivity | split; eexists; reflexivity ] | ]).
  apply Forall_nil.
Defined.

Lemma filter_result_raises {A : Type} (f : A -> result bool) (l : list A) (e : exn) :
  filter_result f l = Raise e -> exists x, In x l /\ f x = Raise e.
Proof.
  induction l as [| y rest IH]; cbn [filter_result]; [ discriminate | ].
  destruct (f y) as [keep | e'] eqn:Hy; cbn [bind].
  - destruct (filter_result f rest) as [kept | e']; cbn [bind]; [ discriminate | ].
    intros [= <-]. destruct (IH eq_refl) as [x [Hx Hf]]. exists x. split; [ right | ]; assumption.
  - intros [= <-]. exists y. split; [ left; reflexivity | exact Hy ].
Qed.

(** The choice of the tasks raises nothing but [TypeError]. *)
Lemma tasks_to_spawn_raises (all_tasks : list Task.t) (completed_tasks : list string)
    (e : exn) :
  tasks_to_spawn all_tasks completed_tasks = Raise e -> e = TypeError.
Proof.
  unfold tasks_to_spawn, keyed_tasks_to_spawn.
  destruct (filter_result is_agent_talk all_tasks) as [ag | e1] eqn:E1; cbn [bind].
  - destruct (filter_result (is_ready completed_tasks) ag) as [rd | e2] eqn:E2; cbn [bind].
    + destruct (comprehension _ rd) as [keyed | e3] eqn:E3; cbn [bind]; [ discriminate | ].
      intros [= <-]. clear E2. revert e3 E3.
      induction rd as [| t rest IH]; intros e3; cbn [comprehension]; [ discriminate | ].
      unfold priority_rank at 1.
      destruct (Task.priority t); cbn [bind];
        try (intros [= <-]; reflexivity);
        (destruct (comprehension _ rest) as [ks | e4]; cbn [bind];
         [ discriminate | intros [= <-]; apply IH; reflexivity ]).
    + intros [= <-]. destruct (filter_result_raises _ _ _ E2) as [t [_ Ht]].
      unfold is_ready, check_dependencies_met in Ht.
      destruct (String.eqb (Task.status t) "todo"); [ | discriminate ].
      destruct (Task.depends_on t) as [[| d l] | [|]]; try discriminate.
      injection Ht as <-. reflexivity.
  - intros [= <-]. destruct (filter_result_raises _ _ _ E1) as [t [_ Ht]].
    unfold is_agent_talk in Ht.
    assert (Hid : match Task.id t with
                  | FStr s => Ok (is_substring "agent-talk" s)
                  | FBool _ => Raise TypeError
                  | FList l => Ok (existsb (String.eqb "agent-talk") l)
                  end = Raise e1 -> e1 = TypeError).
    { destruct (Task.id t); try discriminate. intros [= <-]. reflexivity. }
    destruct (Task.project t) as [p | b | l]; try (apply Hid; exact Ht).
    revert Ht. clear - Hid.
    repeat (destruct p as [| [[|] [|] [|] [|] [|] [|] [|] [|]] p]; try exact Hid; try discriminate).
Qed.

(** X24: one task file can stop a run.  When a task of the project that is
    still to do has [True] for its dependencies, the choice of the tasks to
    spawn ends in a [TypeError], whatever the other tasks are. *)
Theorem depends_on_true_aborts_run (all_tasks : list Task.t) (completed_tasks : list string)
    (t : Task.t) :
  In t all_tasks ->
  is_agent_talk t = Ok true ->
  Task.status t = "todo" ->
  Task.depends_on t = DepBool true ->
  tasks_to_spawn all_tasks completed_tasks = Raise TypeError.
Proof.
  intros Hin Hproj Hstatus Hdeps.
  destruct (tasks_to_spawn all_tasks completed_tasks) as [chosen | e] eqn:E.
  - exfalso.
    destruct (tasks_to_spawn_stages _ _ _ E) as (ag & rd & keyed & H1 & H2 & _).
    destruct (filter_result_ok _ _ _ H1) as [_ A].
    destruct (filter_result_ok _ _ _ H2) as [R _].
    destruct (R t) as [b Hb]; [ apply A; split; assumption | ].
    unfold is_ready, check_dependencies_met in Hb.
    rewrite Hstatus, Hdeps in Hb. cbn in Hb. discriminate Hb.
  - f_equal. exact (tasks_to_spawn_raises _ _ _ E).
Qed.

Lemma depends_on_true_aborts_run_witness :
  tasks_to_spawn
    (Task.mk "task-009-deploy.md" (FStr "task-009") (FStr "high") "todo"
       (DepBool true) "Deploy" (FStr "agent-talk") "" :: example_tasks)
    ["task-000"] = Raise TypeError.
Proof.
  apply (depends_on_true_aborts_run _ ["task-000"]
           (Task.mk "task-009-deploy.md" (FStr "task-009") (FStr "high") "todo"
              (DepBool true) "Deploy" (FStr "agent-talk") "")).
  - left. reflexivity.
  - reflexivity.
  - reflexivity.
  - reflexivity.
Defined.

(** X25: a dependency written as one bare id counts as that one dependency.
    For a task whose dependencies [read_task] took from a str [s] of the
    frontmatter, the dependencies are met exactly when [s] is the str [[]],
    the empty str, or the id of a completed task. *)
Theorem bare_dependency_met_iff (task : Task.t) (completed_tasks : list string) (s : string) :
  Task.depends_on task = read_depends_on (Some (FStr s)) ->
  exists met,
    check_dependencies_met task completed_tasks = Ok met /\
    (met = true <-> s = "[]" \/ s = "" \/ In s completed_tasks).
Proof.
  intros H. unfold check_dependencies_met. rewrite H. cbn [read_depends_on].
  destruct (String.eqb_spec s "[]") as [-> | H1]; cbn [orb].
  - exists true. split; [ reflexivity | tauto ].
  - destruct (String.eqb_spec s "") as [-> | H2].
    + exists true. split; [ reflexivity | tauto ].
    + eexists. split; [ reflexivity | ]. rewrite all_deps_met_iff. split.
      * intros Hd. right. right. apply Hd; [ left; reflexivity | exact H2 ].
      * intros [Hs | [Hs | Hs]] d [<- | []] _; [ contradiction | contradiction | exact Hs ].
Qed.

Lemma bare_dependency_met_iff_witness :
  exists met,
    check_dependencies_met
      (Task.mk "task-004-ui.md" (FStr "task-004") (FStr "medium") "todo"
         (DepList ["task-003"]) "UI" (FStr "agent-talk") "")
      ["task-001"] = Ok met /\
    (met = true <-> "task-003" = "[]" \/ "task-003" = "" \/ In "task-003" ["task-001"]).
Proof.
  apply (bare_dependency_met_iff
           (Task.mk "task-004-ui.md" (FStr "task-004") (FStr "medium") "todo"
              (DepList ["task-003"]) "UI" (FStr "agent-talk") "")
           ["task-001"] "task-003").
  reflexivity.
Defined.

(** ** The response mappers on complete bodies *)

Ltac absent_contradicts H p :=
  exfalso; apply (H p);
  [ simpl; tauto
  | cbn [resolve];
    repeat match goal with E : lookup _ _ = _ |- _ => rewrite E end;
    reflexivity ].

(** X26: on a body in which every required field is present the mapper of
    the shape returns, and each field of the typed result holds the wire
    value of the field it is renamed from; what else the body holds is
    ignored. *)
Theorem map_response_copies_required_fields (s : shape) (response : value) :
  (forall path, In path (required s) -> resolve response path <> None) ->
  exists r,
    map_response s response = Ok r /\
    forall path, In path (required s) -> typed_field r path = resolve response path.
Proof.
  intros H. destruct s; unfold map_response.
  - destruct response as [ | | | | | | d ]; try absent_contradicts H ["id"].
    destruct (lookup "id" d) as [id |] eqn:E1; [ | absent_contradicts H ["id"] ].
    destruct (lookup "text" d) as [text |] eqn:E2; [ | absent_contradicts H ["text"] ].
    destruct (lookup "voice" d) as [v |] eqn:Ev; [ | absent_contradicts H ["voice"; "id"] ].
    destruct v as [ | | | | | | dv ]; try absent_contradicts H ["voice"; "id"].
    destruct (lookup "id" dv) as [vid |] eqn:E3; [ | absent_contradicts H ["voice"; "id"] ].
    destruct (lookup "name" dv) as [vname |] eqn:E4;
      [ | absent_contradicts H ["voice"; "name"] ].
    destruct (lookup "gender" dv) as [vgender |] eqn:E5;
      [ | absent_contradicts H ["voice"; "gender"] ].
    destruct (lookup "description" dv) as [vdescription |] eqn:E6;
      [ | absent_contradicts H ["voice"; "description"] ].
    destruct (lookup "audio" d) as [a |] eqn:Ea; [ | absent_contradicts H ["audio"; "url"] ].
    destruct a as [ | | | | | | da ]; try absent_contradicts H ["audio"; "url"].
    destruct (lookup "url" da) as [aurl |] eqn:E7; [ | absent_contradicts H ["audio"; "url"] ].
    destruct (lookup "duration" da) as [aduration |] eqn:E8;
      [ | absent_contradicts H ["audio"; "duration"] ].
    destruct (lookup "format" da) as [aformat |] eqn:E9;
      [ | absent_contradicts H ["audio"; "format"] ].
    destruct (lookup "createdAt" d) as [created |] eqn:E10;
      [ | absent_contradicts H ["createdAt"] ].
    eexists. split.
    + unfold Memo_of_response. cbn [py_getitem].
      rewrite E1, E2, Ev, Ea, E10. cbn [bind py_getitem].
      rewrite E3, E4, E5, E6, E7, E8, E9. cbn [bind]. reflexivity.
    + intros path Hp. simpl in Hp.
      repeat (destruct Hp as [Hp | Hp]; [ subst path | ]); try contradiction;
        cbn [resolve typed_field];
        repeat match goal with E : lookup _ _ = _ |- _ => rewrite E end;
        reflexivity.
  - destruct response as [ | | | | | | d ]; try absent_contradicts H ["status"].
    destruct (lookup "status" d) as [status |] eqn:E1; [ | absent_contradicts H ["status"] ].
    destruct (lookup "service" d) as [service |] eqn:E2;
      [ | absent_contradicts H ["service"] ].
    destruct (lookup "version" d) as [version |] eqn:E3;
      [ | absent_contradicts H ["version"] ].
    destruct (lookup "timestamp" d) as [timestamp |] eqn:E4;
      [ | absent_contradicts H ["timestamp"] ].
    destruct (lookup "ttsMode" d) as [tts |] eqn:E5; [ | absent_contradicts H ["ttsMode"] ].
    destruct (lookup "database" d) as [database |] eqn:E6;
      [ | absent_contradicts H ["database"] ].
    eexists. split.
    + unfold HealthResponse_of_response. cbn [py_getitem].
      rewrite E1, E2, E3, E4, E5, E6. cbn [bind]. reflexivity.
    + intros path Hp. simpl in Hp.
      repeat (destruct Hp as [Hp | Hp]; [ subst path | ]); try contradiction;
        cbn [resolve typed_field];
        repeat match goal with E : lookup _ _ = _ |- _ => rewrite E end;
        reflexivity.
Qed.

Lemma map_response_copies_required_fields_witness :
  exists r,
    map_response HealthShape example_health_response = Ok r /\
    forall path, In path (required HealthShape) ->
      typed_field r path = resolve example_health_response path.
Proof.
  apply (map_response_copies_required_fields HealthShape example_health_response).
  intros path Hp. simpl in Hp.
  repeat (destruct Hp as [Hp | Hp]; [ subst path; discriminate | ]). contradiction.
Defined.

(** X27: what the taxonomy table promises, where the mapper keeps it.  For
    a code of the table and wire details whose keys are fields of
    [ErrorDetails], the mapper returns an instance of the class of the code,
    with that code and the status the table declares, whatever the status of
    the call. *)
Theorem create_error_of_taxonomy_code (status_code : Z) (c : string) (declared : Z)
    (message : value) (items : list (string * value)) :
  In (c, declared) spec_taxonomy ->
  known_keys items ->
  exists e,
    create_error_from_response status_code (envelope (JStr c) message (JDict items)) = Ok e /\
    AgentTalkError.code e = JStr c /\
    AgentTalkError.status_code e = declared /\
    In (c, AgentTalkError.name e) class_names.
Proof.
  intros Hc Hk.
  assert (Hin : In c (map fst spec_taxonomy)) by (apply (in_map fst _ _ Hc)).
  destruct (recognized_known_details_ok status_code c message items Hin Hk)
    as (e & He & Hcode & Hcons).
  exists e. split; [ exact He | ]. split; [ exact Hcode | ]. split.
  - unfold consistent in Hcons. rewrite Hcode in Hcons. cbn [taxonomy_status] in Hcons.
    clear - Hc Hcons. each_code Hc; cbn in Hcons; congruence.
  - destruct (create_error_ok_cases _ _ _ He) as [_ | [Hn _]].
    + rewrite create_error_envelope in He.
      destruct (details_of (JDict items)) as [details | x]; cbn [bind hashable] in He;
        [ | discriminate ].
      destruct (factory_of c (error_map message details (JDict items))) as [factory |] eqn:Hf.
      * exact (factory_class _ _ _ _ _ _ Hf He).
      * apply (factory_iff_taxonomy c message details (JDict items)) in Hin.
        destruct Hin as [factory Hin]. congruence.
    + unfold consistent in Hcons. congruence.
Qed.

Lemma create_error_of_taxonomy_code_witness :
  exists e,
    create_error_from_response 500
      (envelope (JStr "INVALID_VOICE") (JStr "Invalid voice: invalid")
         (JDict [("requested_voice", JStr "invalid")])) = Ok e /\
    AgentTalkError.code e = JStr "INVALID_VOICE" /\
    AgentTalkError.status_code e = 400 /\
    In ("INVALID_VOICE", AgentTalkError.name e) class_names.
Proof.
  apply (create_error_of_taxonomy_code 500 "INVALID_VOICE" 400).
  - simpl. tauto.
  - apply Forall_cons; [ simpl; tauto | apply Forall_nil ].
Defined.
